(** * merge_dark_mode.py: the selector override resolver

    A shallow embedding of [merge_dark_mode_css] and of the output-path
    computation of the script's entry point, followed by the properties
    of the line scanner.

    Python strings are modelled by [string]; a character is a code point
    below 256.  Integers that can become negative (the brace balance) are
    in [Z]; cursors into the line list are in [nat]. *)

From Stdlib Require Import String Ascii List ZArith Lia Bool Arith.
Import ListNotations.

Open Scope string_scope.
Open Scope list_scope.
Open Scope nat_scope.

(** ** Python string primitives used by the script *)

Module PyStr.

(** [str.isspace] on one character; also the class [\s] of [re] on a
    [str] pattern.  Below 256 these are TAB..CR, FS..US, space, NEL and
    NBSP. *)
Definition is_space (c : ascii) : bool :=
  let n := nat_of_ascii c in
  ((9 <=? n) && (n <=? 13)) || ((28 <=? n) && (n <=? 32))
  || (n =? 133) || (n =? 160).

(** [sub in s] *)
Fixpoint contains (sub s : string) : bool :=
  prefix sub s ||
  match s with
  | EmptyString => false
  | String _ s' => contains sub s'
  end.

(** [s.count(c)] for a one-character [c] *)
Fixpoint count (c : ascii) (s : string) : Z :=
  match s with
  | EmptyString => 0
  | String a s' => ((if Ascii.eqb a c then 1 else 0) + count c s')%Z
  end.

(** [s.split(sep)] for a one-character [sep]; the result is never empty *)
Fixpoint split (sep : ascii) (s : string) : list string :=
  match s with
  | EmptyString => [EmptyString]
  | String c s' =>
      if Ascii.eqb c sep then EmptyString :: split sep s'
      else match split sep s' with
           | [] => [String c EmptyString]
           | w :: ws => String c w :: ws
           end
  end.

(** [sep.join(ls)] is [String.concat sep ls]. *)
Definition join (sep : string) (ls : list string) : string := String.concat sep ls.

Fixpoint lstrip (s : string) : string :=
  match s with
  | EmptyString => EmptyString
  | String c s' => if is_space c then lstrip s' else s
  end.

Fixpoint rstrip (s : string) : string :=
  match s with
  | EmptyString => EmptyString
  | String c s' =>
      match rstrip s' with
      | EmptyString => if is_space c then EmptyString else String c EmptyString
      | r => String c r
      end
  end.

(** [s.strip()] *)
Definition strip (s : string) : string := rstrip (lstrip s).

(** [s[n:]] *)
Fixpoint drop (n : nat) (s : string) : string :=
  match n, s with
  | O, _ => s
  | S _, EmptyString => EmptyString
  | S n', String _ s' => drop n' s'
  end.

(** The regular expression [lit\s+] (with [lit] a literal) matches at the
    head of [s]. *)
Definition lit_ws_here (lit s : string) : bool :=
  prefix lit s &&
  match drop (String.length lit) s with
  | String c _ => is_space c
  | EmptyString => false
  end.

(** [re.sub(lit + r'\s+', '', s)]: leftmost non-overlapping matches are
    deleted; [\s+] is greedy, so a match takes the literal and the whole
    run of white space after it, and the search resumes behind it.  One
    unit of fuel is spent per character or match, so [length s] is
    enough. *)
Fixpoint re_sub_fuel (fuel : nat) (lit s : string) : string :=
  match fuel with
  | O => s
  | S fuel' =>
      match s with
      | EmptyString => EmptyString
      | String c s' =>
          if lit_ws_here lit s
          then re_sub_fuel fuel' lit (lstrip (drop (String.length lit) s))
          else String c (re_sub_fuel fuel' lit s')
      end
  end.

Definition re_sub_lit_ws (lit s : string) : string :=
  re_sub_fuel (String.length s) lit s.

(** [s.replace(old, new)] for a non-empty [old] *)
Fixpoint replace_fuel (fuel : nat) (old new s : string) : string :=
  match fuel with
  | O => s
  | S fuel' =>
      match s with
      | EmptyString => EmptyString
      | String c s' =>
          if prefix old s
          then (new ++ replace_fuel fuel' old new (drop (String.length old) s))%string
          else String c (replace_fuel fuel' old new s')
      end
  end.

Definition replace (old new s : string) : string :=
  replace_fuel (String.length s) old new s.

End PyStr.

Import PyStr.

(** The newline character and the one-character string made of it. *)
Definition LF : ascii := "010"%char.
Definition nl : string := String LF EmptyString.

Definition lbrace : ascii := "{"%char.
Definition rbrace : ascii := "}"%char.

(** ** The scanner *)

(** [merged_selectors] is a Python set of strings of which the code uses
    only [add] and [in]; it is kept as the list of its members. *)
Record state : Type := mkState {
  i : nat;
  result_lines : list string;
  merged_selectors : list string
}.

Definition mem (x : string) (s : list string) : bool :=
  existsb (String.eqb x) s.

(** [lines[k]]; only used under [k < len(lines)]. *)
Definition line_at (lines : list string) (k : nat) : string :=
  nth k lines EmptyString.

(** Line 25: ['body.dark-mode' in line or '.dark-mode' in line] *)
Definition is_dark_line (line : string) : bool :=
  contains "body.dark-mode" line || contains ".dark-mode" line.

(** Lines 27-28: the two substitutions. *)
Definition strip_dark (line : string) : string :=
  re_sub_lit_ws ".dark-mode" (re_sub_lit_ws "body.dark-mode" line).

(** [line.count('{') - line.count('}')] *)
Definition brace_delta (line : string) : Z :=
  (count lbrace line - count rbrace line)%Z.

(** Lines 35-40, the block collector.  [rest] is [lines[i:]], so that
    [i < len(lines)] is [rest <> []] and [lines[i]] is its head. *)
Fixpoint collect_block (rest : list string) (i : nat) (brace_count : Z)
    (rule_lines : list string) : nat * list string :=
  match rest with
  | [] => (i, rule_lines)
  | l :: rest' =>
      if (0 <? brace_count)%Z || negb (contains "}" l) then
        let rule_lines := rule_lines ++ [l] in
        let brace_count := (brace_count + brace_delta l)%Z in
        let i := i + 1 in
        if (brace_count <=? 0)%Z then (i, rule_lines)
        else collect_block rest' i brace_count rule_lines
      else (i, rule_lines)
  end.

(** Lines 72-74, skipping the block of an overridden base rule. *)
Fixpoint skip_block (rest : list string) (i : nat) (brace_count : Z) : nat :=
  match rest with
  | [] => i
  | l :: rest' =>
      if (0 <? brace_count)%Z
      then skip_block rest' (i + 1) (brace_count + brace_delta l)%Z
      else i
  end.

(** How the lookahead of lines 58-64 ends: on a matching line [j], on a
    line [j] with more than three opening braces, or at the end of the
    input. *)
Inductive scan_end : Type :=
| Found (j : nat)
| BraceStop (j : nat)
| Exhausted.

(** Line 59: the test applied to [lines[j]]. *)
Definition override_line (selector l : string) : bool :=
  contains ("body.dark-mode " ++ selector)%string l
  || contains (".dark-mode " ++ selector)%string l.

(** Lines 58-64; [rest] is [lines[j:]]. *)
Fixpoint lookahead (selector : string) (rest : list string) (j : nat)
    : scan_end :=
  match rest with
  | [] => Exhausted
  | l :: rest' =>
      if override_line selector l then Found j
      else if (3 <? count lbrace l)%Z then BraceStop j
      else lookahead selector rest' (j + 1)
  end.

(** [has_dark_override] after the loop: set on a match only. *)
Definition found (e : scan_end) : bool :=
  match e with
  | Found _ => true
  | _ => false
  end.

Definition has_dark_override (selector : string) (lines : list string)
    (i : nat) : bool :=
  found (lookahead selector (skipn (i + 1) lines) (i + 1)).

(** Line 54: a regular line that opens a rule. *)
Definition rule_opening (line : string) : bool :=
  negb (strip line =? "")%string && contains "{" line
  && negb (prefix "/*" (strip line)).

(** Line 55 *)
Definition selector_of (line : string) : string :=
  strip (hd EmptyString (split lbrace line)).

(** Lines 31-43: the block captured for the dark-mode line [line] at
    index [k], with the cursor the collector stopped at.  The line under
    that cursor, when there is one, is appended to the block. *)
Definition capture (lines : list string) (k : nat) (line : string)
    : nat * list string :=
  let '(i', rule_lines) :=
    collect_block (skipn (k + 1) lines) (k + 1) (brace_delta line)
      [strip_dark line] in
  (i', if i' <? List.length lines then rule_lines ++ [line_at lines i']
       else rule_lines).

(** Line 46 *)
Definition base_selector (line : string) : string := strip (strip_dark line).

(** Lines 22-79: one iteration of the main loop, entered with
    [i < len(lines)]. *)
Definition body (lines : list string) (st : state) : state :=
  let line := line_at lines (i st) in
  if is_dark_line line then
    let '(i', rule_lines) := capture lines (i st) line in
    if negb (mem (base_selector line) (merged_selectors st)) then
      mkState (i' + 1) (result_lines st ++ rule_lines)
        (base_selector line :: merged_selectors st)
    else
      mkState (i' + 1) (result_lines st) (merged_selectors st)
  else if rule_opening line then
    let selector := selector_of line in
    if negb (has_dark_override selector lines (i st)) then
      mkState (i st + 1) (result_lines st ++ [line]) (merged_selectors st)
    else
      mkState
        (skip_block (skipn (i st + 1) lines) (i st + 1) (brace_delta line))
        (result_lines st) (merged_selectors st)
  else
    mkState (i st + 1) (result_lines st ++ [line]) (merged_selectors st).

(** Line 21: [while i < len(lines)].  [None] means that the fuel ran out
    with the loop still running. *)
Fixpoint main_loop (fuel : nat) (lines : list string) (st : state)
    : option state :=
  if i st <? List.length lines then
    match fuel with
    | O => None
    | S fuel' => main_loop fuel' lines (body lines st)
    end
  else Some st.

Definition init : state := mkState 0 [] [].

(** The function on the list of lines: every iteration advances the
    cursor, so [len(lines)] iterations are enough. *)
Definition merge_lines (lines : list string) : option (list string) :=
  option_map result_lines (main_loop (List.length lines) lines init).

(** Lines 10-81 *)
Definition merge_dark_mode_css (css_content : string) : option string :=
  option_map (join nl) (merge_lines (split LF css_content)).

(** Line 96 of the entry point *)
Definition output_file (css_file : string) : string :=
  replace ".css" "_merged.css" css_file.

(** Joining lines with newlines, for writing inputs down. *)
Definition text (ls : list string) : string := join nl ls.

(** The lookahead as the specification words it, to be compared with
    [lookahead]: the scan also ends once the opening braces of the lines
    scanned so far add up to four or more. *)
Fixpoint lookahead_cumulative (selector : string) (rest : list string)
    (j : nat) (seen : Z) : scan_end :=
  match rest with
  | [] => Exhausted
  | l :: rest' =>
      if override_line selector l then Found j
      else
        let seen := (seen + count lbrace l)%Z in
        if (4 <=? seen)%Z then BraceStop j
        else lookahead_cumulative selector rest' (j + 1) seen
  end.

(** ** Notions used in the statements *)

Definition quiet (selector l : string) : Prop :=
  override_line selector l = false /\ (count lbrace l <= 3)%Z.

(** A line holds a dark-mode scope marker. *)
Definition has_scope_marker (l : string) : bool :=
  contains "body.dark-mode " l || contains ".dark-mode " l.

(** A line of the output is an unscoped rule for [selector]. *)
Definition unscoped_rule_for (selector l : string) : bool :=
  negb (has_scope_marker l) && rule_opening l
  && (selector_of l =? selector)%string.

(** A line of the input is a base rule for [selector]. *)
Definition base_rule_for (selector l : string) : bool :=
  negb (is_dark_line l) && rule_opening l
  && (selector_of l =? selector)%string.

Definition count_lines (p : string -> bool) (ls : list string) : nat :=
  List.length (filter p ls).

Definition no_dark_text (l : string) : Prop :=
  contains ".dark-mode" l = false.

(** [derived ls out]: [out] is made from the lines [ls] in their order,
    each line used at most once, either left out, copied, or, for a
    dark-mode line, replaced by its stripped form. *)
Inductive derived : list string -> list string -> Prop :=
| derived_nil : derived [] []
| derived_drop (l : string) (ls out : list string) :
    derived ls out -> derived (l :: ls) out
| derived_keep (l : string) (ls out : list string) :
    derived ls out -> derived (l :: ls) (l :: out)
| derived_strip (l : string) (ls out : list string) :
    is_dark_line l = true ->
    derived ls out -> derived (l :: ls) (strip_dark l :: out).

(** The size of a text given by its lines, with one separator counted
    per line. *)
Definition chars (ls : list string) : nat :=
  list_sum (map (fun l => S (String.length l)) ls).

(** A line that the scan copies whatever follows it: no dark-mode text
    and no opening brace. *)
Definition plain (l : string) : Prop :=
  is_dark_line l = false /\ contains "{" l = false.

(** The state of the scan seen from behind a prefix of [n] lines that
    have given the output [done]. *)
Definition behind (n : nat) (done : list string) (st : state) : state :=
  mkState (n + i st) (done ++ result_lines st) (merged_selectors st).

(** The brace balance after the lines [ls], entered with [brace_count]. *)
Definition balance (brace_count : Z) (ls : list string) : Z :=
  fold_left (fun b l => (b + brace_delta l)%Z) ls brace_count.

(** The balance is positive in front of every line of [ls]. *)
Definition open_before_each (brace_count : Z) (ls : list string) : Prop :=
  forall m, m < List.length ls -> (0 < balance brace_count (firstn m ls))%Z.

(** The states the main loop goes through from a given state. *)
Inductive scan (lines : list string) : state -> state -> Prop :=
| scan_here (st : state) : scan lines st st
| scan_next (st st' : state) :
    i st < List.length lines ->
    scan lines (body lines st) st' -> scan lines st st'.

(** The regular expression [lit\s+] matches somewhere in [s]. *)
Fixpoint lit_ws_in (lit s : string) : bool :=
  lit_ws_here lit s ||
  match s with
  | EmptyString => false
  | String _ s' => lit_ws_in lit s'
  end.

(** A string of white space only. *)
Fixpoint blank (w : string) : bool :=
  match w with
  | EmptyString => true
  | String c w' => is_space c && blank w'
  end.

(** ** The entry point

    Lines 83-100.  The script is seen through the calls it makes, in
    their order: what it prints, which path it opens to read, which path
    it opens to write and with which text, how it ends.  What the calls
    return is given from outside: the text read from a path, or the
    failure to read it, and whether the write goes through. *)

Inductive event : Type :=
| Print (line : string)
| Read (path : string)
| Write (path text : string)
| Uncaught
| Exit (status : nat)
| Diverge.

Record answers : Type := mkAnswers {
  read_text : string -> option string;
  write_ok : string -> bool
}.

Definition usage : string := "Usage: python merge_dark_mode.py <css_file>".

(** [argv] is [sys.argv]: the script name, then the arguments.  A
    failing [open] or [write] raises, and nothing catches it.  [Diverge]
    stands for a call of [merge_dark_mode_css] that does not return. *)
Definition main (argv : list string) (env : answers) : list event :=
  if negb (List.length argv =? 2) then
    [Print usage; Exit 1]
  else
    let css_file := nth 1 argv EmptyString in
    match read_text env css_file with
    | None => [Read css_file; Uncaught]
    | Some content =>
        match merge_dark_mode_css content with
        | None => [Read css_file; Diverge]
        | Some merged =>
            let output_file := output_file css_file in
            if write_ok env output_file then
              [Read css_file; Write output_file merged;
               Print ("Merged CSS written to " ++ output_file)%string;
               Exit 0]
            else
              [Read css_file; Write output_file merged; Uncaught]
        end
    end.

(** ** Stylesheets used below *)

Definition two_dark_rules : list string :=
  [ "body.dark-mode .a { color: #fff; }";
    "body.dark-mode .b { color: #000; }" ].

Definition dark_then_base : list string :=
  [ "body.dark-mode .card { color: #fff; }"; ".card { color: #000; }" ].

Definition far_override : list string :=
  [ ".card { color: #000; }";
    ".w { color: red; }";
    ".x { color: red; }";
    ".y { color: red; }";
    ".z { color: red; }";
    "body.dark-mode .card { color: #fff; }" ].

Definition base_behind_dark : list string :=
  [ "body.dark-mode .x { color: #111; }";
    ".card { color: #000; }";
    "body.dark-mode .card { color: #fff; }" ].

Definition repeated_dark_rule : list string :=
  [ "body.dark-mode .a {"; "  color: red;"; "}";
    "body.dark-mode .a {"; "  color: blue;"; "}" ].

Definition repeated_one_line_rule : list string :=
  [ "body.dark-mode .a { color: red; }"; ""; "";
    "body.dark-mode .a { color: blue; }" ].

Definition selector_list : list string :=
  [ "body.dark-mode .a,"; "body.dark-mode .b {"; "  color: red;"; "}" ].

Definition discarded_repeat : list string :=
  [ "body.dark-mode .a {"; "  color: red;"; "}"; "";
    "body.dark-mode .a {"; "  color: blue;"; "}";
    ".b { color: green; }" ].

(** ** The primitives on a few values *)

Example is_space_table :
  filter (fun n => is_space (ascii_of_nat n)) (seq 0 256)
  = [9; 10; 11; 12; 13; 28; 29; 30; 31; 32; 133; 160].
Proof. vm_compute. reflexivity. Qed.

Example split_values :
  split LF "" = [""]
  /\ split LF (String "a" nl) = ["a"; ""]
  /\ split lbrace ".card { color: #000; }" = [".card "; " color: #000; }"].
Proof. repeat split; reflexivity. Qed.

Example strip_values :
  strip "  .card  " = ".card" /\ strip "   " = "" /\ strip "a b" = "a b".
Proof. repeat split; reflexivity. Qed.

Example strip_dark_values :
  strip_dark "body.dark-mode   .a body.dark-mode.b body.dark-mode  x"
  = ".a body.dark-mode.b x"
  /\ strip_dark ".dark.dark-mode -mode .a {}" = ".dark-mode .a {}"
  /\ strip_dark "  .dark-mode .a, .dark-mode .b {" = "  .a, .b {".
Proof. repeat split; reflexivity. Qed.

Example replace_values :
  replace ".css" "_merged.css" "a.css.d/x.css" = "a_merged.css.d/x_merged.css".
Proof. reflexivity. Qed.

(** ** Cursor bounds and termination *)

Section Cursor.

Variable lines : list string.

Lemma collect_block_cursor (rest : list string) :
  forall k bc rl,
    k <= fst (collect_block rest k bc rl) <= k + List.length rest.
Proof.
  induction rest as [|l rest IH]; intros k bc rl; simpl.
  - lia.
  - destruct ((0 <? bc)%Z || negb (contains "}" l)); simpl; [|lia].
    destruct (bc + brace_delta l <=? 0)%Z; simpl; [lia|].
    specialize (IH (k + 1) (bc + brace_delta l)%Z (rl ++ [l])). lia.
Qed.

Lemma skip_block_cursor (rest : list string) :
  forall k bc, k <= skip_block rest k bc <= k + List.length rest.
Proof.
  induction rest as [|l rest IH]; intros k bc; simpl.
  - lia.
  - destruct (0 <? bc)%Z; [|lia].
    specialize (IH (k + 1) (bc + brace_delta l)%Z). lia.
Qed.

Lemma capture_cursor (k : nat) (line : string) :
  k < List.length lines ->
  k + 1 <= fst (capture lines k line) <= List.length lines.
Proof.
  intros Hk. unfold capture.
  pose proof (collect_block_cursor (skipn (k + 1) lines) (k + 1)
                (brace_delta line) [strip_dark line]) as H.
  destruct (collect_block _ _ _ _) as [i' rl]; simpl in *.
  rewrite length_skipn in H. lia.
Qed.

(** Every iteration moves the cursor forward, and never further than one
    position behind the last line. *)
Lemma body_cursor (st : state) :
  i st < List.length lines ->
  i st < i (body lines st) <= List.length lines + 1.
Proof.
  intros Hi. unfold body.
  destruct (is_dark_line (line_at lines (i st))).
  - pose proof (capture_cursor (i st) (line_at lines (i st)) Hi) as H.
    destruct (capture lines (i st) (line_at lines (i st))) as [i' rl].
    simpl in H. destruct (negb _); simpl; lia.
  - destruct (rule_opening _); [destruct (negb _)|]; simpl; try lia.
    pose proof (skip_block_cursor (skipn (i st + 1) lines) (i st + 1)
                  (brace_delta (line_at lines (i st)))) as H.
    rewrite length_skipn in H. lia.
Qed.

Lemma main_loop_enough_fuel (fuel : nat) :
  forall st,
    List.length lines - i st <= fuel ->
    exists st', main_loop fuel lines st = Some st'
                /\ List.length lines <= i st'.
Proof.
  induction fuel as [|fuel IH]; intros st Hf.
  - exists st. simpl. destruct (Nat.ltb_spec (i st) (List.length lines)).
    + lia.
    + split; [reflexivity | lia].
  - simpl. destruct (Nat.ltb_spec (i st) (List.length lines)) as [Hlt|Hge].
    + apply IH. pose proof (body_cursor st Hlt). lia.
    + exists st. split; [reflexivity | lia].
Qed.

(** With enough fuel the result does not depend on the fuel. *)
Lemma main_loop_fuel (f1 : nat) :
  forall f2 st,
    List.length lines - i st <= f1 ->
    List.length lines - i st <= f2 ->
    main_loop f1 lines st = main_loop f2 lines st.
Proof.
  induction f1 as [|f1 IH]; intros f2 st H1 H2.
  - destruct f2; simpl;
      destruct (Nat.ltb_spec (i st) (List.length lines)); try reflexivity; lia.
  - destruct f2; simpl;
      destruct (Nat.ltb_spec (i st) (List.length lines)) as [Hlt|Hge];
      try reflexivity; try lia.
    pose proof (body_cursor st Hlt). apply IH; lia.
Qed.

(** Unfolding one iteration without touching the fuel. *)
Lemma main_loop_step (fuel : nat) (st : state) :
  i st < List.length lines ->
  List.length lines - i st <= fuel ->
  main_loop fuel lines st = main_loop fuel lines (body lines st).
Proof.
  intros Hlt Hf. destruct fuel as [|fuel]; [lia|].
  pose proof (body_cursor st Hlt) as Hb.
  transitivity (main_loop fuel lines (body lines st)).
  - simpl. destruct (Nat.ltb_spec (i st) (List.length lines)); [reflexivity|lia].
  - apply main_loop_fuel; lia.
Qed.

Lemma main_loop_done (fuel : nat) (st : state) :
  List.length lines <= i st -> main_loop fuel lines st = Some st.
Proof.
  intros H. destruct fuel; simpl;
    destruct (Nat.ltb_spec (i st) (List.length lines)); try reflexivity; lia.
Qed.

End Cursor.

(** ** The scans as the loops of the source

    The scans are written by recursion on the lines ahead of the cursor.
    Started on [lines[k:]] they satisfy the equations of the [while] and
    [for] loops they stand for, with the guard [k < len(lines)] and the
    access [lines[k]]. *)

Section LoopEquations.

Variable lines : list string.

Lemma skipn_line_at (k : nat) :
  k < List.length lines ->
  skipn k lines = line_at lines k :: skipn (k + 1) lines.
Proof.
  revert lines. induction k as [|k IH]; intros [|x xs] H; simpl in *;
    try lia.
  - reflexivity.
  - apply IH. lia.
Qed.

Lemma collect_block_equation (k : nat) (bc : Z) (rl : list string) :
  collect_block (skipn k lines) k bc rl
  = if (k <? List.length lines)
       && ((0 <? bc)%Z || negb (contains "}" (line_at lines k)))
    then
      if (bc + brace_delta (line_at lines k) <=? 0)%Z
      then (k + 1, rl ++ [line_at lines k])
      else collect_block (skipn (k + 1) lines) (k + 1)
             (bc + brace_delta (line_at lines k))%Z
             (rl ++ [line_at lines k])
    else (k, rl).
Proof.
  destruct (Nat.ltb_spec k (List.length lines)) as [Hlt|Hge].
  - rewrite (skipn_line_at k Hlt) at 1. reflexivity.
  - rewrite skipn_all2 by lia. reflexivity.
Qed.

Lemma skip_block_equation (k : nat) (bc : Z) :
  skip_block (skipn k lines) k bc
  = if (k <? List.length lines) && (0 <? bc)%Z
    then skip_block (skipn (k + 1) lines) (k + 1)
           (bc + brace_delta (line_at lines k))%Z
    else k.
Proof.
  destruct (Nat.ltb_spec k (List.length lines)) as [Hlt|Hge].
  - rewrite (skipn_line_at k Hlt) at 1. reflexivity.
  - rewrite skipn_all2 by lia. reflexivity.
Qed.

Lemma lookahead_equation (selector : string) (j : nat) :
  lookahead selector (skipn j lines) j
  = if j <? List.length lines then
      if override_line selector (line_at lines j) then Found j
      else if (3 <? count lbrace (line_at lines j))%Z then BraceStop j
      else lookahead selector (skipn (j + 1) lines) (j + 1)
    else Exhausted.
Proof.
  destruct (Nat.ltb_spec j (List.length lines)) as [Hlt|Hge].
  - rewrite (skipn_line_at j Hlt) at 1. reflexivity.
  - rewrite skipn_all2 by lia. reflexivity.
Qed.

End LoopEquations.

(** C8.  The function returns on every input: the main loop is given
    [len(lines)] iterations and never needs more, because each iteration
    moves the cursor forward; and a brace-counting scan ([collect_block],
    [skip_block]) started at cursor [k] with the lines [rest] still ahead
    of it stops at or before the end of the input, where it stops
    whatever the brace balance is. *)
Theorem merge_dark_mode_css_terminates :
  (forall css_content : string,
      exists out, merge_dark_mode_css css_content = Some out)
  /\ (forall rest k brace_count rule_lines,
        fst (collect_block rest k brace_count rule_lines)
          <= k + List.length rest
        /\ skip_block rest k brace_count <= k + List.length rest)
  /\ (forall k brace_count rule_lines,
        collect_block [] k brace_count rule_lines = (k, rule_lines)
        /\ skip_block [] k brace_count = k).
Proof.
  split; [|split].
  - intros css. unfold merge_dark_mode_css, merge_lines.
    destruct (main_loop_enough_fuel (split LF css)
                (List.length (split LF css)) init) as [st' [E _]].
    + simpl. lia.
    + rewrite E. simpl. eexists. reflexivity.
  - intros rest k bc rl. split.
    + apply collect_block_cursor.
    + apply skip_block_cursor.
  - intros. split; reflexivity.
Qed.

(** An unclosed block: when no line closes more braces than it opens, a
    scan entered with a positive balance runs to the last line and stops
    there. *)
Lemma skip_block_unclosed (rest : list string) :
  forall k bc,
    (0 < bc)%Z ->
    Forall (fun l => (0 <= brace_delta l)%Z) rest ->
    skip_block rest k bc = k + List.length rest.
Proof.
  induction rest as [|l rest IH]; intros k bc Hbc HF; simpl.
  - lia.
  - inversion HF; subst.
    destruct (Z.ltb_spec 0 bc); [|lia].
    rewrite IH by (auto; lia). lia.
Qed.

(** A base rule that is never closed, with its override inside: the
    skip runs to the end of the input and the function returns, with
    nothing emitted. *)
Example unclosed_rule_returns :
  merge_lines [ ".card {"; "  color: #000;";
                "body.dark-mode .card {"; "  color: #fff;" ]
  = Some [].
Proof. reflexivity. Qed.

(** ** The captured block *)

Lemma collect_block_lines (rest : list string) :
  forall k bc rl,
    snd (collect_block rest k bc rl)
    = rl ++ firstn (fst (collect_block rest k bc rl) - k) rest.
Proof.
  induction rest as [|l rest IH]; intros k bc rl; simpl.
  - rewrite firstn_nil, app_nil_r. reflexivity.
  - destruct ((0 <? bc)%Z || negb (contains "}" l)); simpl.
    + destruct (bc + brace_delta l <=? 0)%Z; simpl.
      * replace (k + 1 - k) with 1 by lia. reflexivity.
      * rewrite IH.
        pose proof (collect_block_cursor rest (k + 1)
                      (bc + brace_delta l)%Z (rl ++ [l])) as [Hlo _].
        destruct (fst (collect_block rest (k + 1) (bc + brace_delta l)
                         (rl ++ [l])) - k) as [|n] eqn:E; [lia|].
        replace (fst (collect_block rest (k + 1) (bc + brace_delta l)
                        (rl ++ [l])) - (k + 1)) with n by lia.
        simpl. rewrite <- app_assoc. reflexivity.
    + rewrite Nat.sub_diag. simpl. rewrite app_nil_r. reflexivity.
Qed.

Lemma firstn_snoc_nth (A : Type) (d : A) (xs : list A) (n : nat) :
  n < List.length xs -> firstn n xs ++ [nth n xs d] = firstn (n + 1) xs.
Proof.
  revert n. induction xs as [|x xs IH]; intros n Hn; simpl in *.
  - lia.
  - destruct n as [|n]; simpl.
    + reflexivity.
    + rewrite IH by lia. reflexivity.
Qed.

(** The block is the stripped opening line followed by the input lines
    [lines[k+1 : i'+1]], copied as they are. *)
Lemma capture_lines (lines : list string) (k : nat) (line : string) :
  k < List.length lines ->
  snd (capture lines k line)
  = strip_dark line
      :: firstn (fst (capture lines k line) - k) (skipn (k + 1) lines).
Proof.
  intros Hk. unfold capture.
  pose proof (collect_block_lines (skipn (k + 1) lines) (k + 1)
                (brace_delta line) [strip_dark line]) as HL.
  pose proof (collect_block_cursor (skipn (k + 1) lines) (k + 1)
                (brace_delta line) [strip_dark line]) as HC.
  destruct (collect_block _ _ _ _) as [i' rl]. simpl in *.
  rewrite length_skipn in HC.
  destruct (Nat.ltb_spec i' (List.length lines)) as [Hlt|Hge]; simpl.
  - rewrite HL. simpl. f_equal. unfold line_at.
    replace i' with ((k + 1) + (i' - (k + 1))) at 2 by lia.
    rewrite <- nth_skipn.
    rewrite firstn_snoc_nth by (rewrite length_skipn; lia).
    f_equal. lia.
  - rewrite HL. simpl. f_equal.
    rewrite !firstn_all2 by (rewrite length_skipn; lia). reflexivity.
Qed.

(** The line behind a captured block.  When the scan stands on a
    dark-mode line, the collector of lines 35-40 stops at a cursor [stop]; if a line is
    left there ([stop < len(lines)]), line 43 appends it to the block
    whatever it is, and the main loop resumes behind it, so that it is
    never a current line: it is neither stripped nor checked for an
    override.  The line then shares the fate of the block: lines 47-50
    emit the block as it is when its selector line is new, and drop it,
    the appended line included, when it is not.  In particular the line
    right after the dark-mode line, when there is one, is always the
    second line of the block, copied from the input; this covers the
    one-line rule, whose collector may not run at all. *)
Theorem next_line_absorbed (lines : list string) (st : state) :
  i st < List.length lines ->
  is_dark_line (line_at lines (i st)) = true ->
  let line := line_at lines (i st) in
  let collected :=
    collect_block (skipn (i st + 1) lines) (i st + 1) (brace_delta line)
      [strip_dark line] in
  let stop := fst collected in
  let block := snd (capture lines (i st) line) in
  (stop < List.length lines ->
     block = snd collected ++ [line_at lines stop])
  /\ i (body lines st) = stop + 1
  /\ result_lines (body lines st)
     = (if mem (base_selector line) (merged_selectors st)
        then result_lines st
        else result_lines st ++ block)
  /\ (i st + 1 < List.length lines ->
        exists rest,
          block = strip_dark line :: line_at lines (i st + 1) :: rest).
Proof.
  intros Hi Hdark. cbv zeta.
  set (line := line_at lines (i st)) in *.
  set (collected := collect_block (skipn (i st + 1) lines) (i st + 1)
                      (brace_delta line) [strip_dark line]).
  assert (Hstop : fst (capture lines (i st) line) = fst collected).
  { unfold capture. fold collected. destruct collected; reflexivity. }
  split; [|split; [|split]].
  - intros Hlt. unfold capture. fold collected.
    destruct collected as [i' rl]. simpl in *.
    destruct (Nat.ltb_spec i' (List.length lines)); [reflexivity|lia].
  - unfold body. fold line. rewrite Hdark.
    destruct (capture lines (i st) line) as [i' rl]. simpl in Hstop.
    subst i'. destruct (negb _); reflexivity.
  - unfold body. fold line. rewrite Hdark.
    destruct (capture lines (i st) line) as [i' rl].
    destruct (mem (base_selector line) (merged_selectors st)); reflexivity.
  - intros Hnext. rewrite capture_lines by exact Hi.
    rewrite Hstop.
    pose proof (capture_cursor lines (i st) line Hi) as HC.
    rewrite Hstop in HC.
    destruct (fst collected - i st) as [|n] eqn:E; [lia|].
    destruct (skipn (i st + 1) lines) as [|x xs] eqn:Es.
    + apply (f_equal (@List.length string)) in Es.
      rewrite length_skipn in Es. simpl in Es. lia.
    + simpl. exists (firstn n xs). do 2 f_equal.
      unfold line_at. replace (i st + 1) with ((i st + 1) + 0) at 1 by lia.
      rewrite <- nth_skipn, Es. reflexivity.
Qed.

Lemma next_line_absorbed_witness :
  result_lines (body two_dark_rules init)
  = [ ".a { color: #fff; }"; "body.dark-mode .b { color: #000; }" ]
  /\ i (body two_dark_rules init) = 2.
Proof.
  pose proof (next_line_absorbed two_dark_rules init
                ltac:(simpl; lia) eq_refl) as [_ [Hc [Hr _]]].
  split.
  - rewrite Hr. reflexivity.
  - rewrite Hc. reflexivity.
Defined.

(** C10 at [discarded_repeat]: the line appended to a captured block
    is to be emitted as it is, and here it is lost.  The scan reaches the
    second rule for [.a] at index 4 with [.a {] already recorded; its
    collector stops at index 7 with the rule for [.b] left, line 43
    appends that line to the block, lines 47-50 drop the block as a
    repeat, and the main loop resumes behind the line: the rule for [.b],
    which the regular path of lines 66-67 would emit, is in the block and
    not in the output. *)
Lemma absorbed_line_not_emitted :
  i (body discarded_repeat init) = 4
  /\ merged_selectors (body discarded_repeat init) = [ ".a {" ]
  /\ is_dark_line (line_at discarded_repeat 4) = true
  /\ capture discarded_repeat 4 (line_at discarded_repeat 4)
     = (7, [ ".a {"; "  color: blue;"; "}"; ".b { color: green; }" ])
  /\ result_lines (body discarded_repeat (body discarded_repeat init))
     = result_lines (body discarded_repeat init)
  /\ i (body discarded_repeat (body discarded_repeat init)) = 8
  /\ merge_lines discarded_repeat
     = Some [ ".a {"; "  color: red;"; "}"; "" ]
  /\ ~ In ".b { color: green; }" [ ".a {"; "  color: red;"; "}"; "" ].
Proof.
  repeat split; try reflexivity.
  simpl. intros [H|[H|[H|[H|[]]]]]; discriminate.
Qed.

(** ** The lookahead *)

(** Where the lookahead of lines 58-64 ends.  It ends before the end
    of the input exactly at the first line that either matches or holds more
    than three opening braces by itself; braces are counted per line and
    nothing is summed over the lines scanned. *)
Theorem lookahead_stops (selector : string) (rest : list string) :
  forall j0,
    match lookahead selector rest j0 with
    | Found j =>
        exists k l, j = j0 + k /\ nth_error rest k = Some l
                    /\ override_line selector l = true
                    /\ Forall (quiet selector) (firstn k rest)
    | BraceStop j =>
        exists k l, j = j0 + k /\ nth_error rest k = Some l
                    /\ override_line selector l = false
                    /\ (3 < count lbrace l)%Z
                    /\ Forall (quiet selector) (firstn k rest)
    | Exhausted => Forall (quiet selector) rest
    end.
Proof.
  induction rest as [|l rest IH]; intros j0; simpl.
  - constructor.
  - destruct (override_line selector l) eqn:Eo.
    + exists 0, l. simpl. repeat split; auto; lia.
    + destruct (Z.ltb_spec 3 (count lbrace l)) as [Hc|Hc].
      * exists 0, l. simpl. repeat split; auto; lia.
      * specialize (IH (j0 + 1)).
        assert (Hq : quiet selector l) by (split; [exact Eo | lia]).
        destruct (lookahead selector rest (j0 + 1)) as [j|j|].
        -- destruct IH as (k & l' & -> & Hn & Ho & HF).
           exists (S k), l'. simpl. repeat split; auto; lia.
        -- destruct IH as (k & l' & -> & Hn & Ho & Hb & HF).
           exists (S k), l'. simpl. repeat split; auto; lia.
        -- constructor; assumption.
Qed.

(** C3 at [far_override]: the lookahead is to stop once the opening
    braces of the lines scanned add up to four, as the comment of line 62
    (stop looking after seeing multiple rules) has it.  Behind the base
    rule for [.card] four rules with one opening brace each bring the
    running total to four; line 63 counts the braces of the current line
    only, so the code scans on, finds the override on the next line and
    drops the base rule. *)
Lemma lookahead_not_cumulative :
  lookahead ".card" (skipn 1 far_override) 1 = Found 5
  /\ lookahead_cumulative ".card" (skipn 1 far_override) 1 0 = BraceStop 4
  /\ lookahead ".card" (skipn 1 far_override) 1
     <> lookahead_cumulative ".card" (skipn 1 far_override) 1 0
  /\ merge_lines far_override
     = Some [ ".w { color: red; }"; ".x { color: red; }";
              ".y { color: red; }"; ".z { color: red; }";
              ".card { color: #fff; }" ].
Proof.
  repeat split; try reflexivity. vm_compute. discriminate.
Qed.

(** ** The scenario of a dark rule in front of its base rule *)

Lemma found_lookahead_shift (selector : string) (rest : list string) :
  forall j j',
    found (lookahead selector rest j) = found (lookahead selector rest j').
Proof.
  induction rest as [|l rest IH]; intros j j'; simpl.
  - reflexivity.
  - destruct (override_line selector l); [reflexivity|].
    destruct (3 <? count lbrace l)%Z; [reflexivity|]. apply IH.
Qed.

Lemma has_dark_override_behind (selector : string) (pre : list string)
    (l : string) (rest : list string) :
  has_dark_override selector (pre ++ l :: rest) (List.length pre)
  = found (lookahead selector rest 0).
Proof.
  unfold has_dark_override.
  replace (skipn (List.length pre + 1) (pre ++ l :: rest)) with rest.
  - change (found (lookahead selector rest (List.length pre + 1))
            = found (lookahead selector rest 0)).
    apply found_lookahead_shift.
  - replace (List.length pre + 1) with (List.length pre + 1 + 0) by lia.
    replace (pre ++ l :: rest) with ((pre ++ [l]) ++ rest)
      by (rewrite <- app_assoc; reflexivity).
    rewrite skipn_app, skipn_all2 by (rewrite length_app; simpl; lia).
    rewrite length_app. simpl.
    replace (List.length pre + 1 + 0 - (List.length pre + 1)) with 0 by lia.
    reflexivity.
Qed.

(** C7.  On the two-line input the output has the stripped dark rule
    first and the base rule after it, unchanged.  The override test made
    for a rule looks at the lines behind it and at nothing else, so that
    whatever stands in front of a base rule, a dark rule included, cannot
    suppress it; from the base rule at index 1 the test finds nothing. *)
Theorem dark_before_base_keeps_both :
  merge_dark_mode_css
    ("body.dark-mode .card { color: #fff; }" ++ nl
       ++ ".card { color: #000; }")%string
  = Some (".card { color: #fff; }" ++ nl ++ ".card { color: #000; }")%string
  /\ split LF ("body.dark-mode .card { color: #fff; }" ++ nl
                 ++ ".card { color: #000; }")%string
     = dark_then_base
  /\ merge_lines dark_then_base
     = Some [ ".card { color: #fff; }"; ".card { color: #000; }" ]
  /\ selector_of ".card { color: #000; }" = ".card"
  /\ has_dark_override ".card" dark_then_base 1 = false
  /\ (forall selector pre pre' l l' rest,
        has_dark_override selector (pre ++ l :: rest) (List.length pre)
        = has_dark_override selector (pre' ++ l' :: rest)
            (List.length pre')).
Proof.
  repeat split; try reflexivity.
  intros. rewrite !has_dark_override_behind. reflexivity.
Qed.

(** ** The output path *)

Section StringFacts.

Lemma slength_append (a b : string) :
  String.length (a ++ b)%string = String.length a + String.length b.
Proof. induction a; simpl; congruence. Qed.

Lemma sappend_assoc (a b c : string) :
  ((a ++ b) ++ c)%string = (a ++ (b ++ c))%string.
Proof. induction a; simpl; congruence. Qed.

Lemma sappend_empty_r (a : string) : (a ++ "")%string = a.
Proof. induction a; simpl; congruence. Qed.

Lemma prefix_append (a t : string) : prefix a (a ++ t)%string = true.
Proof.
  induction a as [|c a IH]; simpl.
  - destruct t; reflexivity.
  - destruct (ascii_dec c c); [exact IH | congruence].
Qed.

Lemma prefix_split (a s : string) :
  prefix a s = true -> exists t, s = (a ++ t)%string.
Proof.
  revert s. induction a as [|c a IH]; intros s H.
  - exists s. reflexivity.
  - destruct s as [|d s]; simpl in H; [discriminate|].
    destruct (ascii_dec c d) as [->|]; [|discriminate].
    destruct (IH s H) as [t ->]. exists t. reflexivity.
Qed.

Lemma drop_length (n : nat) :
  forall s, String.length (drop n s) = String.length s - n.
Proof.
  induction n as [|n IH]; intros [|c s]; simpl; auto.
Qed.

Lemma drop_append (a t : string) : drop (String.length a) (a ++ t)%string = t.
Proof. induction a; simpl; auto. Qed.

Lemma contains_cons (sub : string) (c : ascii) (s : string) :
  contains sub (String c s) = prefix sub (String c s) || contains sub s.
Proof. reflexivity. Qed.

End StringFacts.

Section Replace.

Variables old new : string.
Hypothesis old_nonempty : old <> EmptyString.
Hypothesis new_longer : String.length old < String.length new.

Lemma replace_fuel_empty (fuel : nat) :
  replace_fuel fuel old new EmptyString = EmptyString.
Proof. destruct fuel; reflexivity. Qed.

Lemma replace_fuel_cons (fuel : nat) (c : ascii) (s : string) :
  replace_fuel (S fuel) old new (String c s)
  = if prefix old (String c s)
    then (new ++ replace_fuel fuel old new
                   (drop (String.length old) (String c s)))%string
    else String c (replace_fuel fuel old new s).
Proof. reflexivity. Qed.

Lemma replace_fuel_grows (fuel : nat) :
  forall s, String.length s <= String.length (replace_fuel fuel old new s).
Proof.
  induction fuel as [|fuel IH]; intros s; [simpl; lia|].
  destruct s as [|c s]; [simpl; lia|].
  rewrite replace_fuel_cons.
  destruct (prefix old (String c s)).
  - rewrite slength_append.
    specialize (IH (drop (String.length old) (String c s))).
    rewrite drop_length in IH. lia.
  - simpl. specialize (IH s). lia.
Qed.

Lemma replace_fuel_longer (fuel : nat) :
  forall s,
    String.length s <= fuel ->
    contains old s = true ->
    String.length s < String.length (replace_fuel fuel old new s).
Proof.
  induction fuel as [|fuel IH]; intros s Hf Hc.
  - destruct s; simpl in *; [|lia].
    destruct old; [congruence | discriminate].
  - destruct s as [|c s].
    + simpl in Hc. destruct old; [congruence | discriminate].
    + rewrite replace_fuel_cons. rewrite contains_cons in Hc.
      destruct (prefix old (String c s)) eqn:Ep.
      * rewrite slength_append.
        pose proof (replace_fuel_grows fuel
                      (drop (String.length old) (String c s))) as Hg.
        rewrite drop_length in Hg. lia.
      * simpl in Hc. simpl in Hf. simpl.
        specialize (IH s ltac:(lia) Hc). lia.
Qed.

Lemma replace_fuel_absent (fuel : nat) :
  forall s, contains old s = false -> replace_fuel fuel old new s = s.
Proof.
  induction fuel as [|fuel IH]; intros s Hc; [reflexivity|].
  destruct s as [|c s]; [reflexivity|].
  rewrite contains_cons in Hc. apply orb_false_iff in Hc as [Hp Hc].
  rewrite replace_fuel_cons, Hp. rewrite IH by exact Hc. reflexivity.
Qed.

End Replace.

(** The fuel given to [replace] and to [re_sub_lit_ws] is enough: more
    of it gives the same result. *)

Lemma replace_fuel_enough (old new : string) :
  old <> EmptyString ->
  forall f1 f2 s,
    String.length s <= f1 -> String.length s <= f2 ->
    replace_fuel f1 old new s = replace_fuel f2 old new s.
Proof.
  intros Hold. induction f1 as [|f1 IH]; intros f2 s H1 H2.
  - destruct s; [|simpl in H1; lia]. destruct f2; reflexivity.
  - destruct s as [|c s]; [destruct f2; reflexivity|].
    destruct f2 as [|f2]; [simpl in H2; lia|].
    rewrite !replace_fuel_cons.
    destruct (prefix old (String c s)).
    + f_equal. apply IH; rewrite drop_length; simpl in *;
        destruct old; try congruence; simpl; lia.
    + f_equal. apply IH; simpl in *; lia.
Qed.

Lemma lstrip_length (s : string) :
  String.length (lstrip s) <= String.length s.
Proof.
  induction s as [|c s IH]; simpl; [lia|].
  destruct (is_space c); simpl; lia.
Qed.

Lemma lit_ws_here_shorter (lit s : string) :
  lit_ws_here lit s = true ->
  String.length (lstrip (drop (String.length lit) s)) < String.length s.
Proof.
  unfold lit_ws_here. intros H. apply andb_true_iff in H as [_ H].
  pose proof (drop_length (String.length lit) s) as Hd.
  destruct (drop (String.length lit) s) as [|c r]; [discriminate|].
  simpl. rewrite H. pose proof (lstrip_length r). simpl in Hd. lia.
Qed.

Lemma re_sub_fuel_enough (lit : string) :
  forall f1 f2 s,
    String.length s <= f1 -> String.length s <= f2 ->
    re_sub_fuel f1 lit s = re_sub_fuel f2 lit s.
Proof.
  induction f1 as [|f1 IH]; intros f2 s H1 H2.
  - destruct s; [|simpl in H1; lia]. destruct f2; reflexivity.
  - destruct s as [|c s]; [destruct f2; reflexivity|].
    destruct f2 as [|f2]; [simpl in H2; lia|].
    change (re_sub_fuel (S f1) lit (String c s))
      with (if lit_ws_here lit (String c s)
            then re_sub_fuel f1 lit
                   (lstrip (drop (String.length lit) (String c s)))
            else String c (re_sub_fuel f1 lit s)).
    change (re_sub_fuel (S f2) lit (String c s))
      with (if lit_ws_here lit (String c s)
            then re_sub_fuel f2 lit
                   (lstrip (drop (String.length lit) (String c s)))
            else String c (re_sub_fuel f2 lit s)).
    destruct (lit_ws_here lit (String c s)) eqn:E.
    + pose proof (lit_ws_here_shorter _ _ E). apply IH; simpl in *; lia.
    + f_equal. apply IH; simpl in *; lia.
Qed.

Lemma css_not_inside (c : ascii) (stem : string) :
  contains ".css" (String c stem) = false ->
  prefix ".css" (String c (stem ++ ".css")) = false.
Proof.
  intros Hc. rewrite contains_cons in Hc.
  apply orb_false_iff in Hc as [Hp _].
  destruct (prefix ".css" (String c (stem ++ ".css"))) eqn:E; [|reflexivity].
  exfalso. apply prefix_split in E as [t E]. simpl in E.
  injection E as -> E.
  destruct stem as [|c1 s1]; simpl in E; [discriminate|].
  injection E as -> E.
  destruct s1 as [|c2 s2]; simpl in E; [discriminate|].
  injection E as -> E.
  destruct s2 as [|c3 s3]; simpl in E; [discriminate|].
  injection E as -> E.
  change (prefix ".css" (".css" ++ s3)%string = false) in Hp.
  rewrite prefix_append in Hp. discriminate.
Qed.

Lemma replace_css_stem (stem : string) :
  forall fuel,
    String.length (stem ++ ".css") <= fuel ->
    contains ".css" stem = false ->
    replace_fuel fuel ".css" "_merged.css" (stem ++ ".css")
    = (stem ++ "_merged.css")%string.
Proof.
  induction stem as [|c stem IH]; intros fuel Hf Hc.
  - simpl in Hf. destruct fuel as [|fuel]; [lia|].
    simpl. rewrite replace_fuel_empty. reflexivity.
  - destruct fuel as [|fuel]; [simpl in Hf; lia|].
    change (String c stem ++ ".css")%string
      with (String c (stem ++ ".css")).
    rewrite replace_fuel_cons, (css_not_inside c stem Hc).
    rewrite contains_cons in Hc. apply orb_false_iff in Hc as [_ Hc].
    rewrite IH; [reflexivity | simpl in Hf; lia | exact Hc].
Qed.

(** Every occurrence is replaced: a path cut at its [.css] into pieces
    that hold no [.css] comes back with the same pieces and
    [_merged.css] between them. *)

Section Pieces.

Lemma replace_skip (old new : string) (c : ascii) (s : string) :
  prefix old (String c s) = false ->
  replace old new (String c s) = String c (replace old new s).
Proof.
  intros H. unfold replace.
  change (String.length (String c s)) with (S (String.length s)).
  rewrite replace_fuel_cons, H. reflexivity.
Qed.

Lemma replace_match (old new s : string) :
  old <> EmptyString ->
  prefix old s = true ->
  replace old new s
  = (new ++ replace old new (drop (String.length old) s))%string.
Proof.
  intros Hold H. unfold replace. destruct s as [|c s].
  - destruct old; [congruence | discriminate].
  - change (String.length (String c s)) with (S (String.length s)).
    rewrite replace_fuel_cons, H. f_equal.
    apply replace_fuel_enough; [exact Hold | | lia].
    rewrite drop_length. destruct old; [congruence|]. simpl. lia.
Qed.

Lemma css_not_straddling (c : ascii) (stem rest : string) :
  contains ".css" (String c stem) = false ->
  prefix ".css" (String c (stem ++ ".css" ++ rest)) = false.
Proof.
  intros Hc. rewrite contains_cons in Hc.
  apply orb_false_iff in Hc as [Hp _].
  destruct (prefix ".css" (String c (stem ++ ".css" ++ rest))) eqn:E;
    [|reflexivity].
  exfalso. apply prefix_split in E as [t E]. simpl in E.
  injection E as -> E.
  destruct stem as [|c1 s1]; simpl in E; [discriminate|].
  injection E as -> E.
  destruct s1 as [|c2 s2]; simpl in E; [discriminate|].
  injection E as -> E.
  destruct s2 as [|c3 s3]; simpl in E; [discriminate|].
  injection E as -> E.
  change (prefix ".css" (".css" ++ s3)%string = false) in Hp.
  rewrite prefix_append in Hp. discriminate.
Qed.

Lemma output_file_piece (stem rest : string) :
  contains ".css" stem = false ->
  output_file (stem ++ ".css" ++ rest)
  = (stem ++ "_merged.css" ++ output_file rest)%string.
Proof.
  unfold output_file. induction stem as [|c stem IH]; intros Hc.
  - change ("" ++ ".css" ++ rest)%string with (".css" ++ rest)%string.
    rewrite replace_match by (discriminate || apply prefix_append).
    rewrite drop_append. reflexivity.
  - change (String c stem ++ ".css" ++ rest)%string
      with (String c (stem ++ ".css" ++ rest)).
    rewrite replace_skip by (apply css_not_straddling; exact Hc).
    rewrite contains_cons in Hc. apply orb_false_iff in Hc as [_ Hc].
    rewrite IH by exact Hc. reflexivity.
Qed.

Lemma output_file_pieces (pieces : list string) :
  Forall (fun s => contains ".css" s = false) pieces ->
  output_file (String.concat ".css" pieces)
  = String.concat "_merged.css" pieces.
Proof.
  induction pieces as [|x pieces IH]; intros HF; [reflexivity|].
  inversion HF as [|? ? Hx HF']; subst.
  destruct pieces as [|y pieces].
  - simpl. unfold output_file, replace. apply replace_fuel_absent. exact Hx.
  - change (String.concat ".css" (x :: y :: pieces))
      with (x ++ ".css" ++ String.concat ".css" (y :: pieces))%string.
    rewrite output_file_piece by exact Hx.
    rewrite IH by exact HF'. reflexivity.
Qed.

Lemma leftmost_css (s : string) :
  contains ".css" s = true ->
  exists stem rest,
    s = (stem ++ ".css" ++ rest)%string /\ contains ".css" stem = false.
Proof.
  induction s as [|c s IH]; intros H; [discriminate|].
  rewrite contains_cons in H.
  destruct (prefix ".css" (String c s)) eqn:Ep.
  - apply prefix_split in Ep as [t ->].
    exists EmptyString, t. split; reflexivity.
  - simpl in H. destruct (IH H) as (stem & rest & -> & Hs).
    exists (String c stem), rest. split; [reflexivity|].
    rewrite contains_cons, Hs, orb_false_r.
    destruct (prefix ".css" (String c stem)) eqn:E; [|reflexivity].
    apply prefix_split in E as [u E].
    change (String c (stem ++ ".css" ++ rest))
      with (String c stem ++ ".css" ++ rest)%string in Ep.
    rewrite E, sappend_assoc, prefix_append in Ep. discriminate.
Qed.

Lemma css_pieces_exist (n : nat) :
  forall s,
    String.length s <= n ->
    exists pieces,
      pieces <> []
      /\ Forall (fun x => contains ".css" x = false) pieces
      /\ s = String.concat ".css" pieces.
Proof.
  induction n as [|n IH]; intros s Hn.
  - destruct s; [|simpl in Hn; lia].
    exists [EmptyString]. repeat split; [discriminate|].
    repeat constructor.
  - destruct (contains ".css" s) eqn:Ec.
    + destruct (leftmost_css s Ec) as (stem & rest & -> & Hs).
      destruct (IH rest) as (pieces & Hne & HF & ->).
      { rewrite !slength_append in Hn. simpl in Hn. lia. }
      exists (stem :: pieces). repeat split.
      * discriminate.
      * constructor; assumption.
      * destruct pieces as [|y pieces]; [congruence | reflexivity].
    + exists [s]. repeat split; [discriminate|].
      repeat constructor. exact Ec.
Qed.

End Pieces.

(** C9, as the code computes the path.  The output path is the input
    path with every [.css] replaced by [_merged.css]: every path is made
    of pieces without [.css] joined by [.css], and for any such pieces
    the output path is the same pieces joined by [_merged.css].  It
    differs from the input path exactly when the input path contains
    [.css]; a path without [.css] is mapped to itself.  For a path
    [stem.css] whose stem holds no [.css], the result is
    [stem_merged.css]. *)
Theorem output_file_naming (css_file : string) :
  (contains ".css" css_file = true -> output_file css_file <> css_file)
  /\ (contains ".css" css_file = false -> output_file css_file = css_file)
  /\ (forall stem,
        css_file = (stem ++ ".css")%string ->
        contains ".css" stem = false ->
        output_file css_file = (stem ++ "_merged.css")%string)
  /\ (forall pieces,
        Forall (fun s => contains ".css" s = false) pieces ->
        css_file = String.concat ".css" pieces ->
        output_file css_file = String.concat "_merged.css" pieces)
  /\ (exists pieces,
        pieces <> []
        /\ Forall (fun s => contains ".css" s = false) pieces
        /\ css_file = String.concat ".css" pieces
        /\ output_file css_file = String.concat "_merged.css" pieces).
Proof.
  split; [|split; [|split; [|split]]].
  - unfold output_file, replace. intros Hc Heq.
    pose proof (replace_fuel_longer ".css" "_merged.css"
                  ltac:(discriminate) ltac:(simpl; lia)
                  (String.length css_file) css_file (le_n _) Hc) as Hl.
    rewrite Heq in Hl. lia.
  - unfold output_file, replace. intros Hc.
    apply replace_fuel_absent. exact Hc.
  - unfold output_file, replace. intros stem -> Hc.
    apply replace_css_stem; [lia | exact Hc].
  - intros pieces HF ->. apply output_file_pieces. exact HF.
  - destruct (css_pieces_exist (String.length css_file) css_file (le_n _))
      as (pieces & Hne & HF & E).
    exists pieces. repeat split; try assumption.
    rewrite E at 1. apply output_file_pieces. exact HF.
Qed.

Lemma output_file_naming_witness :
  output_file "static/styles.css" <> "static/styles.css"
  /\ output_file "notes.txt" = "notes.txt"
  /\ output_file "static/styles.css" = "static/styles_merged.css"
  /\ output_file "theme.css.d/app.css" = "theme_merged.css.d/app_merged.css".
Proof.
  split; [|split; [|split]].
  - exact (proj1 (output_file_naming "static/styles.css") eq_refl).
  - exact (proj1 (proj2 (output_file_naming "notes.txt")) eq_refl).
  - exact (proj1 (proj2 (proj2 (output_file_naming "static/styles.css")))
             "static/styles" eq_refl eq_refl).
  - refine (proj1 (proj2 (proj2 (proj2
              (output_file_naming "theme.css.d/app.css"))))
              [ "theme"; ".d/app"; "" ] _ eq_refl).
    repeat constructor.
Defined.

(** C9 as stated fails: a path without [.css] is its own output path,
    so the input file is overwritten; and a [.css] in a directory name is
    rewritten as well. *)
Lemma output_file_may_overwrite :
  output_file "notes.txt" = "notes.txt"
  /\ output_file "theme.css.d/app.css" = "theme_merged.css.d/app_merged.css".
Proof. split; reflexivity. Qed.

(** ** What the scan does where nothing is absorbed *)

Section Branches.

Variable lines : list string.
Variable st : state.

(** Lines 66-67 and 76-77: a regular line that opens no rule, or a rule
    for which the lookahead finds no override, is emitted as it is. *)
Lemma body_regular_line :
  is_dark_line (line_at lines (i st)) = false ->
  rule_opening (line_at lines (i st))
    && has_dark_override (selector_of (line_at lines (i st))) lines (i st)
  = false ->
  body lines st
  = mkState (i st + 1) (result_lines st ++ [line_at lines (i st)])
      (merged_selectors st).
Proof.
  intros Hd Hr. unfold body. rewrite Hd.
  destruct (rule_opening (line_at lines (i st))); [|reflexivity].
  simpl in Hr. rewrite Hr. reflexivity.
Qed.

(** Lines 68-75: a base rule with an override ahead is skipped with its
    block, and nothing is emitted for it. *)
Lemma body_overridden_rule :
  is_dark_line (line_at lines (i st)) = false ->
  rule_opening (line_at lines (i st)) = true ->
  has_dark_override (selector_of (line_at lines (i st))) lines (i st)
  = true ->
  body lines st
  = mkState
      (skip_block (skipn (i st + 1) lines) (i st + 1)
         (brace_delta (line_at lines (i st))))
      (result_lines st) (merged_selectors st).
Proof.
  intros Hd Hr Ho. unfold body. rewrite Hd, Hr, Ho. reflexivity.
Qed.

End Branches.

(** A base rule [b :: bbody] directly followed by its dark-scoped version
    [d :: dbody], which runs to the end of the input: the output is the
    dark-scoped version with the marker stripped from its opening line,
    and nothing of the base rule. *)
Lemma override_replaces_base_rule (b d : string) (bbody dbody : list string) :
  let lines := b :: bbody ++ d :: dbody in
  is_dark_line b = false ->
  rule_opening b = true ->
  found (lookahead (selector_of b) (bbody ++ d :: dbody) 0) = true ->
  skip_block (bbody ++ d :: dbody) 1 (brace_delta b)
  = 1 + List.length bbody ->
  is_dark_line d = true ->
  fst (collect_block dbody (List.length bbody + 2) (brace_delta d)
         [strip_dark d])
  = List.length lines ->
  merge_lines lines = Some (strip_dark d :: dbody).
Proof.
  intros lines Hb Hr Ho Hs Hd Hc.
  assert (E : lines = [] ++ b :: bbody ++ d :: dbody) by reflexivity.
  clearbody lines.
  assert (Hlen : List.length lines
                 = List.length bbody + 2 + List.length dbody).
  { rewrite E. simpl. rewrite length_app. simpl. lia. }
  assert (Hb_at : line_at lines 0 = b) by (rewrite E; reflexivity).
  assert (Hd_at : line_at lines (1 + List.length bbody) = d).
  { rewrite E. unfold line_at. simpl. rewrite nth_middle. reflexivity. }
  assert (Hrest0 : skipn 1 lines = bbody ++ d :: dbody)
    by (rewrite E; reflexivity).
  assert (Hrest : skipn (1 + List.length bbody + 1) lines = dbody).
  { rewrite E. replace (1 + List.length bbody + 1)
      with (S (List.length (bbody ++ [d]))) by (rewrite length_app; simpl; lia).
    simpl. replace (bbody ++ d :: dbody) with ((bbody ++ [d]) ++ dbody)
      by (rewrite <- app_assoc; reflexivity).
    rewrite skipn_app, skipn_all, Nat.sub_diag. reflexivity. }
  assert (Hover : has_dark_override (selector_of b) lines 0 = true).
  { rewrite E. rewrite (has_dark_override_behind (selector_of b) [] b).
    exact Ho. }
  unfold merge_lines.
  rewrite main_loop_step by (simpl; lia).
  rewrite body_overridden_rule; unfold init; cbn [i];
    [ | rewrite Hb_at; exact Hb | rewrite Hb_at; exact Hr
      | rewrite Hb_at; exact Hover ].
  rewrite Hb_at. change (0 + 1) with 1. rewrite Hrest0, Hs.
  cbn [result_lines merged_selectors].
  rewrite main_loop_step by (simpl; lia).
  unfold body. cbn [i result_lines merged_selectors]. rewrite Hd_at, Hd.
  pose proof (capture_lines lines (1 + List.length bbody) d
                ltac:(lia)) as HL.
  assert (Hf : fst (capture lines (1 + List.length bbody) d)
               = List.length lines).
  { unfold capture. rewrite Hrest.
    replace (1 + List.length bbody + 1) with (List.length bbody + 2) by lia.
    destruct (collect_block dbody _ _ _) as [i' rl]. simpl in *. exact Hc. }
  destruct (capture lines (1 + List.length bbody) d) as [i' rl].
  cbn [fst snd] in HL, Hf. subst i'. cbn [mem existsb negb].
  rewrite main_loop_done by (cbn [i]; lia). cbn [option_map result_lines app].
  rewrite HL, Hrest. rewrite firstn_all2 by lia. reflexivity.
Qed.

Example override_replaces_card_rule :
  merge_lines [ ".card {"; "  color: #000;"; "}";
                "body.dark-mode .card {"; "  color: #fff;"; "}" ]
  = Some [ ".card {"; "  color: #fff;"; "}" ].
Proof.
  apply (override_replaces_base_rule ".card {" "body.dark-mode .card {"
           [ "  color: #000;"; "}" ] [ "  color: #fff;"; "}" ]);
    reflexivity.
Qed.

(** ** Inputs on which the absorbed line shows *)

(** C1 at [two_dark_rules].  The first rule is on one line, its
    collector does not run, and line 43 copies the second rule into the
    block with its marker; the main loop then resumes behind it. *)
Theorem marker_survives_in_output :
  merge_dark_mode_css
    ("body.dark-mode .a { color: #fff; }" ++ nl
       ++ "body.dark-mode .b { color: #000; }")%string
  = Some (".a { color: #fff; }" ++ nl
            ++ "body.dark-mode .b { color: #000; }")%string
  /\ merge_lines two_dark_rules
     = Some [ ".a { color: #fff; }"; "body.dark-mode .b { color: #000; }" ]
  /\ has_scope_marker "body.dark-mode .b { color: #000; }" = true.
Proof. repeat split; reflexivity. Qed.

(** The lines that the collector itself copies are not stripped either:
    of a selector list spread over two lines only the first loses its
    marker. *)
Example selector_list_keeps_marker :
  merge_lines selector_list
  = Some [ ".a,"; "body.dark-mode .b {"; "  color: red;"; "}" ].
Proof. reflexivity. Qed.

(** C2 at [base_behind_dark].  The base rule for [.card] at index 1 has
    its override on the next line, well inside the lookahead, but it is
    never a current line: the block of the rule before it has taken it.
    Both versions are in the output. *)
Theorem base_rule_survives_override :
  base_rule_for ".card" (line_at base_behind_dark 1) = true
  /\ override_line ".card" (line_at base_behind_dark 2) = true
  /\ has_dark_override ".card" base_behind_dark 1 = true
  /\ merge_lines base_behind_dark
     = Some [ ".x { color: #111; }";
              ".card { color: #000; }";
              ".card { color: #fff; }" ].
Proof. repeat split; reflexivity. Qed.

(** C4 at [two_dark_rules].  The input has a dark-scoped rule for [.b]
    and no base rule for it; the output has no unscoped rule for [.b],
    its only rule for [.b] still carries the marker. *)
Theorem lone_dark_rule_not_unscoped :
  override_line ".b" (line_at two_dark_rules 1) = true
  /\ count_lines (base_rule_for ".b") two_dark_rules = 0
  /\ (exists out,
        merge_lines two_dark_rules = Some out
        /\ count_lines (unscoped_rule_for ".b") out = 0
        /\ In "body.dark-mode .b { color: #000; }" out).
Proof.
  repeat split; try reflexivity.
  eexists. repeat split; try reflexivity. simpl. auto.
Qed.

(** C5 at [two_dark_rules].  The first pass leaves the second rule with
    its marker; the second pass strips it, so the second result differs
    from the first. *)
Theorem second_pass_changes_output :
  exists once twice,
    merge_dark_mode_css (text two_dark_rules) = Some once
    /\ merge_dark_mode_css once = Some twice
    /\ once = text [ ".a { color: #fff; }";
                     "body.dark-mode .b { color: #000; }" ]
    /\ twice = text [ ".a { color: #fff; }"; ".b { color: #000; }" ]
    /\ twice <> once.
Proof.
  do 2 eexists. repeat split; try reflexivity. vm_compute. discriminate.
Qed.

(** C6 at [repeated_dark_rule].  The second dark rule for [.a] starts on
    the line behind the first block; line 43 copies that line into the
    first block and the main loop passes its body through, so the later
    rule is emitted whole, marker included.  At [repeated_one_line_rule]
    no rule line is absorbed, and both rules are emitted all the same:
    the set holds the whole stripped opening line, and the two lines
    differ behind the brace. *)
Theorem later_dark_rule_kept :
  merge_lines repeated_dark_rule
  = Some [ ".a {"; "  color: red;"; "}";
           "body.dark-mode .a {"; "  color: blue;"; "}" ]
  /\ merge_lines repeated_one_line_rule
     = Some [ ".a { color: red; }"; ""; ""; ".a { color: blue; }" ]
  /\ base_selector "body.dark-mode .a { color: red; }"
     = ".a { color: red; }"
  /\ selector_of ".a { color: red; }" = ".a"
  /\ selector_of ".a { color: blue; }" = ".a".
Proof. repeat split; reflexivity. Qed.

(** ** Stylesheets without dark-mode text *)

Section Substrings.

Lemma contains_intro (sub p t : string) :
  contains sub (p ++ sub ++ t)%string = true.
Proof.
  induction p as [|c p IH].
  - simpl append. destruct (sub ++ t)%string eqn:E.
    + simpl. destruct sub; [reflexivity | discriminate].
    + rewrite contains_cons, <- E, prefix_append. reflexivity.
  - change (String c p ++ sub ++ t)%string
      with (String c (p ++ sub ++ t)).
    rewrite contains_cons, IH. apply orb_true_r.
Qed.

Lemma contains_elim (sub : string) :
  forall s, contains sub s = true ->
            exists p t, s = (p ++ sub ++ t)%string.
Proof.
  induction s as [|c s IH]; intros H.
  - destruct sub; [|discriminate].
    exists EmptyString, EmptyString. reflexivity.
  - rewrite contains_cons in H. apply orb_true_iff in H as [H|H].
    + apply prefix_split in H as [t ->]. exists EmptyString, t. reflexivity.
    + destruct (IH H) as (p & t & ->). exists (String c p), t. reflexivity.
Qed.

(** A substring of a substring. *)
Lemma contains_inside (a sub b s : string) :
  contains (a ++ sub ++ b)%string s = true -> contains sub s = true.
Proof.
  intros H. apply contains_elim in H as (p & t & ->).
  replace (p ++ (a ++ sub ++ b) ++ t)%string
    with ((p ++ a) ++ sub ++ (b ++ t))%string.
  - apply contains_intro.
  - rewrite !sappend_assoc. reflexivity.
Qed.

Lemma contains_within (sub l p t : string) :
  contains sub l = true -> contains sub (p ++ l ++ t)%string = true.
Proof.
  intros H. apply contains_elim in H as (p' & t' & ->).
  replace (p ++ (p' ++ sub ++ t') ++ t)%string
    with ((p ++ p') ++ sub ++ (t' ++ t))%string.
  - apply contains_intro.
  - rewrite !sappend_assoc. reflexivity.
Qed.

Lemma split_nonempty (sep : ascii) (s : string) : split sep s <> [].
Proof.
  induction s as [|c s IH]; simpl; [discriminate|].
  destruct (Ascii.eqb c sep); [discriminate|].
  destruct (split sep s); discriminate.
Qed.

(** ['\n'.join(s.split('\n')) == s] *)
Lemma join_split (s : string) : join nl (split LF s) = s.
Proof.
  unfold join. induction s as [|c s IH]; [reflexivity|].
  simpl split. destruct (Ascii.eqb_spec c LF) as [->|Hne].
  - pose proof (split_nonempty LF s) as Hs.
    destruct (split LF s) as [|w ws]; [congruence|].
    change (String.concat nl (EmptyString :: w :: ws))
      with (String LF (String.concat nl (w :: ws))).
    rewrite IH. reflexivity.
  - pose proof (split_nonempty LF s) as Hs.
    destruct (split LF s) as [|w ws]; [congruence|].
    transitivity (String c (String.concat nl (w :: ws))).
    + destruct ws; reflexivity.
    + rewrite IH. reflexivity.
Qed.

Lemma split_head_prefix (sep : ascii) (s : string) :
  forall w ws, split sep s = w :: ws -> exists t, s = (w ++ t)%string.
Proof.
  induction s as [|c s IH]; intros w ws H; simpl in H.
  - injection H as <- _. exists EmptyString. reflexivity.
  - destruct (Ascii.eqb c sep).
    + injection H as <- _. exists (String c s). reflexivity.
    + destruct (split sep s) as [|w' ws'] eqn:E.
      * injection H as <- _. destruct (split_nonempty sep s E).
      * injection H as <- _. destruct (IH w' ws' eq_refl) as [t ->].
        exists t. reflexivity.
Qed.

Lemma prefix_extend (sub a t : string) :
  prefix sub a = true -> prefix sub (a ++ t)%string = true.
Proof.
  intros H. apply prefix_split in H as [u ->].
  rewrite sappend_assoc. apply prefix_append.
Qed.

(** A text without [sub] has no line with [sub]. *)
Lemma split_without (sub : string) :
  sub <> EmptyString ->
  forall s,
    contains sub s = false ->
    Forall (fun l => contains sub l = false) (split LF s).
Proof.
  intros Hsub. induction s as [|c s IH]; intros H.
  - constructor; [exact H | constructor].
  - rewrite contains_cons in H. apply orb_false_iff in H as [Hp Hc].
    specialize (IH Hc). simpl split.
    destruct (Ascii.eqb c LF).
    + constructor; [|exact IH].
      destruct sub; [congruence | reflexivity].
    + destruct (split LF s) as [|w ws] eqn:E.
      * destruct (split_nonempty LF s E).
      * inversion IH as [|? ? Hw Hws]; subst.
        constructor; [|exact Hws].
        rewrite contains_cons, Hw, orb_false_r.
        destruct (prefix sub (String c w)) eqn:Ep; [|reflexivity].
        destruct (split_head_prefix LF s w ws E) as [t ->].
        change (String c (w ++ t)) with (String c w ++ t)%string in Hp.
        rewrite (prefix_extend _ _ t Ep) in Hp. discriminate.
Qed.

End Substrings.

Section CleanLines.

Lemma no_dark_text_regular (l : string) :
  no_dark_text l -> is_dark_line l = false.
Proof.
  unfold no_dark_text, is_dark_line. intros H. rewrite H, orb_false_r.
  destruct (contains "body.dark-mode" l) eqn:E; [|reflexivity].
  rewrite (contains_inside "body" ".dark-mode" "" l E) in H. discriminate.
Qed.

Lemma no_dark_text_no_override (selector l : string) :
  no_dark_text l -> override_line selector l = false.
Proof.
  unfold no_dark_text, override_line. intros H.
  apply orb_false_iff. split.
  - destruct (contains ("body.dark-mode " ++ selector) l) eqn:E;
      [|reflexivity].
    rewrite (contains_inside "body" ".dark-mode" (" " ++ selector) l E) in H.
    discriminate.
  - destruct (contains (".dark-mode " ++ selector) l) eqn:E; [|reflexivity].
    rewrite (contains_inside "" ".dark-mode" (" " ++ selector) l E) in H.
    discriminate.
Qed.

Lemma Forall_skipn_keep (A : Type) (P : A -> Prop) (n : nat) :
  forall xs, Forall P xs -> Forall P (skipn n xs).
Proof.
  induction n as [|n IH]; intros xs H; [exact H|].
  destruct xs as [|x xs]; [constructor|].
  inversion H; subst. simpl. apply IH. assumption.
Qed.

Lemma skipn_nth_cons (A : Type) (d : A) (n : nat) :
  forall xs, n < List.length xs -> skipn n xs = nth n xs d :: skipn (S n) xs.
Proof.
  induction n as [|n IH]; intros [|x xs] H; simpl in *; try lia.
  - reflexivity.
  - apply IH. lia.
Qed.

Lemma lookahead_without_dark_text (selector : string) (rest : list string) :
  forall j,
    Forall no_dark_text rest ->
    forall j', lookahead selector rest j <> Found j'.
Proof.
  induction rest as [|l rest IH]; intros j H j'; simpl.
  - discriminate.
  - inversion H; subst.
    rewrite no_dark_text_no_override by assumption.
    destruct (3 <? count lbrace l)%Z; [discriminate|].
    apply IH. assumption.
Qed.

Variable lines : list string.
Hypothesis clean : Forall no_dark_text lines.

Lemma body_without_dark_text (st : state) :
  i st < List.length lines ->
  body lines st
  = mkState (i st + 1) (result_lines st ++ [line_at lines (i st)])
      (merged_selectors st).
Proof.
  intros Hi. unfold body.
  assert (Hl : no_dark_text (line_at lines (i st))).
  { rewrite Forall_forall in clean. apply clean. apply nth_In. exact Hi. }
  rewrite (no_dark_text_regular _ Hl).
  destruct (rule_opening (line_at lines (i st))); [|reflexivity].
  unfold has_dark_override.
  pose proof (lookahead_without_dark_text
                (selector_of (line_at lines (i st)))
                (skipn (i st + 1) lines) (i st + 1)
                (Forall_skipn_keep _ _ _ _ clean)) as H.
  destruct (lookahead _ _ _) as [j| |]; [destruct (H j eq_refl)| |];
    reflexivity.
Qed.

Lemma main_loop_without_dark_text (n : nat) :
  forall st,
    List.length lines - i st = n ->
    i st <= List.length lines ->
    main_loop (List.length lines) lines st
    = Some (mkState (List.length lines)
              (result_lines st ++ skipn (i st) lines)
              (merged_selectors st)).
Proof.
  induction n as [|n IH]; intros st Hn Hle.
  - rewrite main_loop_done by lia.
    rewrite skipn_all2 by lia. rewrite app_nil_r.
    destruct st as [k r m]. simpl in *. do 2 f_equal. lia.
  - rewrite main_loop_step by lia.
    rewrite body_without_dark_text by lia.
    rewrite IH by (simpl; lia). simpl.
    rewrite (skipn_nth_cons _ EmptyString (i st)) by lia.
    rewrite <- app_assoc. replace (i st + 1) with (S (i st)) by lia.
    reflexivity.
Qed.

Lemma merge_lines_without_dark_text : merge_lines lines = Some lines.
Proof.
  unfold merge_lines.
  rewrite (main_loop_without_dark_text (List.length lines) init)
    by (simpl; lia).
  reflexivity.
Qed.

End CleanLines.

(** A stylesheet in which the text [.dark-mode] does not occur is
    returned as it is.  A second pass therefore changes nothing whenever
    the first pass has left no such text behind. *)
Theorem merge_without_dark_text (css_content : string) :
  contains ".dark-mode" css_content = false ->
  merge_dark_mode_css css_content = Some css_content.
Proof.
  intros H. unfold merge_dark_mode_css.
  rewrite merge_lines_without_dark_text.
  - simpl. rewrite join_split. reflexivity.
  - apply split_without; [discriminate | exact H].
Qed.


(** ** Where the output lines come from *)

Section Provenance.

Lemma derived_app (a x b y : list string) :
  derived a x -> derived b y -> derived (a ++ b) (x ++ y).
Proof.
  intros Ha Hb. induction Ha; simpl.
  - exact Hb.
  - apply derived_drop. assumption.
  - apply derived_keep. assumption.
  - apply derived_strip; assumption.
Qed.

Lemma derived_copy (ls : list string) : derived ls ls.
Proof. induction ls; [constructor | apply derived_keep; assumption]. Qed.

Lemma derived_none (ls : list string) : derived ls [].
Proof. induction ls; [constructor | apply derived_drop; assumption]. Qed.

Lemma firstn_stretch (A : Type) (xs : list A) (a b : nat) :
  a <= b -> firstn b xs = firstn a xs ++ firstn (b - a) (skipn a xs).
Proof.
  revert xs b. induction a as [|a IH]; intros xs b H.
  - rewrite Nat.sub_0_r. reflexivity.
  - destruct b as [|b]; [lia|]. destruct xs as [|x xs].
    + rewrite !firstn_nil. reflexivity.
    + simpl. rewrite (IH xs b) by lia. reflexivity.
Qed.

Variable lines : list string.

Lemma body_derived (st : state) :
  i st < List.length lines ->
  derived (firstn (i st) lines) (result_lines st) ->
  derived (firstn (i (body lines st)) lines) (result_lines (body lines st)).
Proof.
  intros Hi Hd.
  pose proof (body_cursor lines st Hi) as [Hadv _].
  rewrite (firstn_stretch _ lines (i st) (i (body lines st))) by lia.
  pose proof (skipn_line_at lines (i st) Hi) as Hs.
  unfold body in *.
  destruct (is_dark_line (line_at lines (i st))) eqn:Edark.
  - pose proof (capture_lines lines (i st) (line_at lines (i st)) Hi) as HL.
    pose proof (capture_cursor lines (i st) (line_at lines (i st)) Hi) as HC.
    destruct (capture lines (i st) (line_at lines (i st))) as [c rl].
    cbn [fst snd] in HL, HC. subst rl.
    destruct (negb (mem _ _)); cbn [i result_lines] in *.
    + apply derived_app; [exact Hd|].
      rewrite Hs. replace (c + 1 - i st) with (S (c - i st)) by lia.
      cbn [firstn]. apply derived_strip; [exact Edark|].
      apply derived_copy.
    + rewrite <- (app_nil_r (result_lines st)) at 1.
      apply derived_app; [exact Hd | apply derived_none].
  - destruct (rule_opening (line_at lines (i st)));
      [destruct (negb (has_dark_override _ _ _))|];
      cbn [i result_lines] in *.
    + apply derived_app; [exact Hd|]. rewrite Hs.
      replace (i st + 1 - i st) with 1 by lia. apply derived_copy.
    + rewrite <- (app_nil_r (result_lines st)) at 1.
      apply derived_app; [exact Hd | apply derived_none].
    + apply derived_app; [exact Hd|]. rewrite Hs.
      replace (i st + 1 - i st) with 1 by lia. apply derived_copy.
Qed.

Lemma main_loop_derived (fuel : nat) :
  forall st st',
    derived (firstn (i st) lines) (result_lines st) ->
    main_loop fuel lines st = Some st' ->
    derived lines (result_lines st').
Proof.
  induction fuel as [|fuel IH]; intros st st' Hd Hrun; simpl in Hrun;
    destruct (Nat.ltb_spec (i st) (List.length lines)) as [Hlt|Hge];
    try discriminate.
  - injection Hrun as <-. rewrite firstn_all2 in Hd by lia. exact Hd.
  - apply (IH _ _ (body_derived st Hlt Hd) Hrun).
  - injection Hrun as <-. rewrite firstn_all2 in Hd by lia. exact Hd.
Qed.

End Provenance.

Lemma output_lines_in_order (css_content : string) :
  exists out,
    merge_dark_mode_css css_content = Some (join nl out)
    /\ derived (split LF css_content) out.
Proof.
  unfold merge_dark_mode_css, merge_lines.
  destruct (main_loop_enough_fuel (split LF css_content)
              (List.length (split LF css_content)) init) as [st' [E _]].
  { simpl. lia. }
  exists (result_lines st'). rewrite E. split; [reflexivity|].
  apply (main_loop_derived (split LF css_content)
           (List.length (split LF css_content)) init st');
    [constructor | exact E].
Qed.

(** The output is made from the input lines in their order: every
    output line is an input line copied as it is or the stripped form of
    a dark-mode input line, no input line is used twice, and nothing is
    moved. *)
Theorem output_derived_from_input (css_content : string) :
  exists out,
    merge_dark_mode_css css_content = Some (join nl out)
    /\ derived (split LF css_content) out.
Proof. exact (output_lines_in_order css_content). Qed.

(** ** The size of the output *)

Lemma re_sub_fuel_cons (fuel : nat) (lit : string) (c : ascii) (s : string) :
  re_sub_fuel (S fuel) lit (String c s)
  = if lit_ws_here lit (String c s)
    then re_sub_fuel fuel lit
           (lstrip (drop (String.length lit) (String c s)))
    else String c (re_sub_fuel fuel lit s).
Proof. reflexivity. Qed.

Lemma re_sub_fuel_shorter (lit : string) (fuel : nat) :
  forall s, String.length (re_sub_fuel fuel lit s) <= String.length s.
Proof.
  induction fuel as [|fuel IH]; intros s; [simpl; lia|].
  destruct s as [|c s]; [simpl; lia|].
  rewrite re_sub_fuel_cons.
  destruct (lit_ws_here lit (String c s)) eqn:E.
  - pose proof (lit_ws_here_shorter _ _ E).
    specialize (IH (lstrip (drop (String.length lit) (String c s)))). lia.
  - specialize (IH s). simpl. lia.
Qed.

Lemma strip_dark_shorter (line : string) :
  String.length (strip_dark line) <= String.length line.
Proof.
  unfold strip_dark, re_sub_lit_ws.
  etransitivity; [apply re_sub_fuel_shorter|]. apply re_sub_fuel_shorter.
Qed.

Lemma derived_chars (ls out : list string) :
  derived ls out -> chars out <= chars ls.
Proof.
  unfold chars. induction 1; simpl; try lia.
  pose proof (strip_dark_shorter l). lia.
Qed.

Lemma join_length (ls : list string) :
  String.length (join nl ls) = chars ls - 1.
Proof.
  unfold join, chars. induction ls as [|x ls IH]; [reflexivity|].
  destruct ls as [|y ls].
  - simpl. lia.
  - change (String.concat nl (x :: y :: ls))
      with (x ++ nl ++ String.concat nl (y :: ls))%string.
    rewrite !slength_append, IH. simpl. lia.
Qed.

Lemma merge_returns_shorter (css_content : string) :
  exists out,
    merge_dark_mode_css css_content = Some out
    /\ String.length out <= String.length css_content.
Proof.
  destruct (output_lines_in_order css_content) as (ls & E & Hd).
  exists (join nl ls). split; [exact E|].
  pose proof (f_equal String.length (join_split css_content)) as Hc.
  rewrite join_length in Hc. rewrite join_length.
  pose proof (derived_chars _ _ Hd). lia.
Qed.

(** The returned text is never longer than the text given. *)
Theorem output_never_longer (css_content : string) :
  exists out,
    merge_dark_mode_css css_content = Some out
    /\ String.length out <= String.length css_content.
Proof. exact (merge_returns_shorter css_content). Qed.

(** ** The scan does not look back *)

Section Behind.

Variable pre rest : list string.

Lemma line_at_behind (k : nat) :
  line_at (pre ++ rest) (List.length pre + k) = line_at rest k.
Proof. unfold line_at. apply app_nth2_plus. Qed.

Lemma skipn_behind (k : nat) :
  skipn (List.length pre + k) (pre ++ rest) = skipn k rest.
Proof.
  rewrite skipn_app, skipn_all2 by lia.
  replace (List.length pre + k - List.length pre) with k by lia.
  reflexivity.
Qed.

Lemma collect_block_behind (ls : list string) :
  forall n k bc rl,
    collect_block ls (n + k) bc rl
    = (n + fst (collect_block ls k bc rl), snd (collect_block ls k bc rl)).
Proof.
  induction ls as [|l ls IH]; intros n k bc rl; simpl.
  - reflexivity.
  - destruct ((0 <? bc)%Z || negb (contains "}" l)); [|reflexivity].
    destruct (bc + brace_delta l <=? 0)%Z.
    + simpl. f_equal. lia.
    + replace (n + k + 1) with (n + (k + 1)) by lia. apply IH.
Qed.

Lemma skip_block_behind (ls : list string) :
  forall n k bc, skip_block ls (n + k) bc = n + skip_block ls k bc.
Proof.
  induction ls as [|l ls IH]; intros n k bc; simpl.
  - reflexivity.
  - destruct (0 <? bc)%Z; [|reflexivity].
    replace (n + k + 1) with (n + (k + 1)) by lia. apply IH.
Qed.

Lemma capture_behind (k : nat) (line : string) :
  capture (pre ++ rest) (List.length pre + k) line
  = (List.length pre + fst (capture rest k line), snd (capture rest k line)).
Proof.
  unfold capture.
  replace (List.length pre + k + 1) with (List.length pre + (k + 1)) by lia.
  rewrite skipn_behind, collect_block_behind.
  destruct (collect_block (skipn (k + 1) rest) (k + 1) (brace_delta line)
              [strip_dark line]) as [c rl].
  cbn [fst snd]. rewrite line_at_behind, length_app.
  destruct (Nat.ltb_spec c (List.length rest));
    destruct (Nat.ltb_spec (List.length pre + c)
                (List.length pre + List.length rest));
    try lia; reflexivity.
Qed.

Lemma has_dark_override_shift (selector : string) (k : nat) :
  has_dark_override selector (pre ++ rest) (List.length pre + k)
  = has_dark_override selector rest k.
Proof.
  unfold has_dark_override.
  replace (List.length pre + k + 1) with (List.length pre + (k + 1)) by lia.
  rewrite skipn_behind. apply found_lookahead_shift.
Qed.

Lemma body_behind (done : list string) (st : state) :
  body (pre ++ rest) (behind (List.length pre) done st)
  = behind (List.length pre) done (body rest st).
Proof.
  unfold body, behind. cbn [i result_lines merged_selectors].
  rewrite line_at_behind.
  destruct (is_dark_line (line_at rest (i st))).
  - rewrite capture_behind.
    destruct (capture rest (i st) (line_at rest (i st))) as [c rl].
    cbn [fst snd].
    destruct (negb (mem _ _)); cbn [i result_lines merged_selectors];
      f_equal; try lia. symmetry; apply app_assoc.
  - destruct (rule_opening (line_at rest (i st))).
    + rewrite has_dark_override_shift.
      destruct (negb (has_dark_override _ rest (i st)));
        cbn [i result_lines merged_selectors]; f_equal; try lia.
      * symmetry; apply app_assoc.
      * replace (List.length pre + i st + 1)
          with (List.length pre + (i st + 1)) by lia.
        rewrite skipn_behind. apply skip_block_behind.
    + cbn [i result_lines merged_selectors]. f_equal; try lia.
      symmetry; apply app_assoc.
Qed.

Lemma main_loop_behind (done : list string) (fuel : nat) :
  forall st,
    main_loop fuel (pre ++ rest) (behind (List.length pre) done st)
    = option_map (behind (List.length pre) done) (main_loop fuel rest st).
Proof.
  induction fuel as [|fuel IH]; intros st; simpl; rewrite length_app;
    destruct (Nat.ltb_spec (i st) (List.length rest));
    destruct (Nat.ltb_spec (List.length pre + i st)
                (List.length pre + List.length rest));
    try lia; try reflexivity.
  rewrite <- IH. f_equal. apply body_behind.
Qed.

Hypothesis pre_plain : Forall plain pre.

Lemma body_plain (st : state) :
  i st < List.length pre ->
  body (pre ++ rest) st
  = mkState (i st + 1) (result_lines st ++ [line_at pre (i st)])
      (merged_selectors st).
Proof.
  intros Hi.
  assert (Hl : line_at (pre ++ rest) (i st) = line_at pre (i st)).
  { unfold line_at. apply app_nth1. exact Hi. }
  assert (Hp : plain (line_at pre (i st))).
  { rewrite Forall_forall in pre_plain. apply pre_plain.
    apply nth_In. exact Hi. }
  destruct Hp as [Hd Hb].
  unfold body. rewrite Hl, Hd. unfold rule_opening. rewrite Hb.
  rewrite andb_false_r. reflexivity.
Qed.

Lemma main_loop_plain (n : nat) :
  forall st,
    List.length pre - i st = n ->
    i st <= List.length pre ->
    main_loop (List.length (pre ++ rest)) (pre ++ rest) st
    = main_loop (List.length (pre ++ rest)) (pre ++ rest)
        (mkState (List.length pre) (result_lines st ++ skipn (i st) pre)
           (merged_selectors st)).
Proof.
  induction n as [|n IH]; intros st Hn Hle.
  - rewrite skipn_all2 by lia. rewrite app_nil_r.
    destruct st as [k r m]. cbn [i result_lines merged_selectors] in *.
    do 2 f_equal. lia.
  - rewrite main_loop_step by (rewrite ?length_app; lia).
    rewrite body_plain by lia.
    rewrite IH by (cbn [i]; lia).
    cbn [i result_lines merged_selectors].
    rewrite (skipn_nth_cons _ EmptyString (i st)) by lia.
    rewrite <- app_assoc. replace (i st + 1) with (S (i st)) by lia.
    reflexivity.
Qed.

Lemma merge_lines_plain_prefix :
  merge_lines (pre ++ rest) = option_map (app pre) (merge_lines rest).
Proof.
  unfold merge_lines.
  rewrite (main_loop_plain (List.length pre) init) by (simpl; lia).
  cbn [init i result_lines merged_selectors skipn app].
  change (mkState (List.length pre) pre [])
    with (mkState (List.length pre) pre (merged_selectors init)).
  replace (mkState (List.length pre) pre (merged_selectors init))
    with (behind (List.length pre) pre init)
    by (unfold behind, init; cbn; rewrite Nat.add_0_r, app_nil_r; reflexivity).
  rewrite main_loop_behind.
  rewrite (main_loop_fuel rest (List.length (pre ++ rest))
             (List.length rest) init)
    by (rewrite ?length_app; simpl; lia).
  destruct (main_loop (List.length rest) rest init) as [st'|]; reflexivity.
Qed.

End Behind.

(** ** Where a block ends *)

Section Blocks.

Lemma balance_cons (bc : Z) (l : string) (ls : list string) :
  balance bc (l :: ls) = balance (bc + brace_delta l)%Z ls.
Proof. reflexivity. Qed.

Lemma open_before_each_tail (bc : Z) (l : string) (ls : list string) :
  open_before_each bc (l :: ls) ->
  (0 < bc)%Z /\ open_before_each (bc + brace_delta l)%Z ls.
Proof.
  intros H. split.
  - apply (H 0). simpl. lia.
  - intros m Hm. apply (H (S m)). simpl. lia.
Qed.

Lemma skip_block_end (rest : list string) :
  forall k bc,
    skip_block rest k bc - k <= List.length rest
    /\ (forall m, m < skip_block rest k bc - k ->
                  (0 < balance bc (firstn m rest))%Z)
    /\ (skip_block rest k bc - k < List.length rest ->
        (balance bc (firstn (skip_block rest k bc - k) rest) <= 0)%Z).
Proof.
  induction rest as [|l rest IH]; intros k bc; simpl.
  - rewrite Nat.sub_diag. repeat split; intros; lia.
  - destruct (Z.ltb_spec 0 bc) as [Hpos|Hneg].
    + destruct (IH (k + 1) (bc + brace_delta l)%Z) as (Hlen & Hopen & Hclose).
      pose proof (skip_block_cursor rest (k + 1) (bc + brace_delta l)%Z)
        as [Hlo _].
      replace (skip_block rest (k + 1) (bc + brace_delta l) - k)
        with (S (skip_block rest (k + 1) (bc + brace_delta l) - (k + 1)))
        by lia.
      repeat split.
      * lia.
      * intros [|m] Hm; simpl; [exact Hpos|]. apply Hopen. lia.
      * intros Hlt. simpl. apply Hclose. lia.
    + rewrite Nat.sub_diag. repeat split; intros; simpl; lia.
Qed.

Lemma collect_block_as_skip (rest : list string) :
  forall k bc rl,
    (0 < bc)%Z -> fst (collect_block rest k bc rl) = skip_block rest k bc.
Proof.
  induction rest as [|l rest IH]; intros k bc rl Hpos; simpl.
  - reflexivity.
  - destruct (Z.ltb_spec 0 bc); [|lia]. simpl.
    destruct (Z.leb_spec (bc + brace_delta l) 0) as [Hle|Hgt].
    + simpl. destruct rest as [|l' rest]; simpl; [reflexivity|].
      destruct (Z.ltb_spec 0 (bc + brace_delta l)); [lia | reflexivity].
    + apply IH. exact Hgt.
Qed.

Lemma skip_block_closed (body others : list string) :
  forall k bc,
    open_before_each bc body ->
    (balance bc body <= 0)%Z ->
    skip_block (body ++ others) k bc = k + List.length body.
Proof.
  induction body as [|l body IH]; intros k bc Hopen Hclose.
  - simpl in *. unfold balance in Hclose. simpl in Hclose.
    destruct others as [|o others]; simpl; [lia|].
    destruct (Z.ltb_spec 0 bc); lia.
  - apply open_before_each_tail in Hopen as [Hpos Hopen].
    simpl. destruct (Z.ltb_spec 0 bc); [|lia].
    rewrite IH; [lia | exact Hopen | exact Hclose].
Qed.

Lemma collect_block_to_end (dbody : list string) :
  forall k bc rl,
    open_before_each bc dbody ->
    fst (collect_block dbody k bc rl) = k + List.length dbody.
Proof.
  induction dbody as [|l dbody IH]; intros k bc rl Hopen.
  - simpl. lia.
  - apply open_before_each_tail in Hopen as [Hpos Hopen].
    simpl. destruct (Z.ltb_spec 0 bc); [|lia]. simpl.
    destruct (Z.leb_spec (bc + brace_delta l) 0) as [Hle|Hgt].
    + destruct dbody as [|l' dbody]; [simpl; lia|].
      specialize (Hopen 0 ltac:(simpl; lia)). unfold balance in Hopen.
      simpl in Hopen. lia.
    + rewrite IH by exact Hopen. lia.
Qed.

End Blocks.

(** The skip of lines 72-74 ends at the first line behind which the
    brace balance is no longer positive, or at the end of the input: it
    passes [n] lines, the balance is positive in front of each of them,
    and if lines are left the balance after the [n] lines is zero or
    less. *)
Theorem skip_block_ends_at_balance (rest : list string) (k : nat)
    (brace_count : Z) :
  let n := skip_block rest k brace_count - k in
  skip_block rest k brace_count = k + n
  /\ n <= List.length rest
  /\ (forall m, m < n -> (0 < balance brace_count (firstn m rest))%Z)
  /\ (n < List.length rest ->
      (balance brace_count (firstn n rest) <= 0)%Z).
Proof.
  cbv zeta.
  pose proof (skip_block_cursor rest k brace_count) as [Hlo _].
  destruct (skip_block_end rest k brace_count) as (H1 & H2 & H3).
  repeat split; try assumption. lia.
Qed.

(** Entered with a positive balance, the collector of a dark-mode block
    (lines 35-40) and the skip of a base block (lines 72-74) stop at the
    same cursor: both paths agree on where such a block ends. *)
Theorem collector_and_skip_agree (rest : list string) (k : nat)
    (brace_count : Z) (rule_lines : list string) :
  (0 < brace_count)%Z ->
  fst (collect_block rest k brace_count rule_lines)
  = skip_block rest k brace_count.
Proof. apply collect_block_as_skip. Qed.

Lemma collector_and_skip_agree_witness :
  fst (collect_block [ "  color: #fff;"; "}"; ""; ".btn {" ] 5 1 [ ".card {" ])
  = skip_block [ "  color: #fff;"; "}"; ""; ".btn {" ] 5 1.
Proof.
  exact (collector_and_skip_agree
           [ "  color: #fff;"; "}"; ""; ".btn {" ] 5 1 [ ".card {" ]
           eq_refl).
Defined.

(** ** Rules that the scan reaches *)

Lemma override_line_is_dark (selector l : string) :
  override_line selector l = true -> is_dark_line l = true.
Proof.
  intros H. unfold is_dark_line.
  destruct (contains ".dark-mode" l) eqn:E; [apply orb_true_r|].
  rewrite (no_dark_text_no_override selector l E) in H. discriminate.
Qed.

Lemma lookahead_reaches (selector d : string) (bbody after : list string) :
  forall j,
    Forall (fun l => (count lbrace l <= 3)%Z) bbody ->
    override_line selector d = true ->
    found (lookahead selector (bbody ++ d :: after) j) = true.
Proof.
  induction bbody as [|l bbody IH]; intros j HF Ho; simpl.
  - rewrite Ho. reflexivity.
  - inversion HF; subst.
    destruct (override_line selector l); [reflexivity|].
    destruct (Z.ltb_spec 3 (count lbrace l)); [lia|].
    apply IH; assumption.
Qed.

Lemma dark_rule_at_end (d : string) (dbody : list string) :
  is_dark_line d = true ->
  open_before_each (brace_delta d) dbody ->
  merge_lines (d :: dbody) = Some (strip_dark d :: dbody).
Proof.
  intros Hd Hopen. unfold merge_lines.
  rewrite main_loop_step by (simpl; lia).
  pose proof (capture_lines (d :: dbody) 0 d ltac:(simpl; lia)) as HL.
  assert (Hf : fst (capture (d :: dbody) 0 d) = List.length (d :: dbody)).
  { unfold capture. cbn [skipn Nat.add].
    pose proof (collect_block_to_end dbody 1 (brace_delta d) [strip_dark d]
                  Hopen) as Hc.
    destruct (collect_block dbody 1 (brace_delta d) [strip_dark d])
      as [c rl]. cbn [fst] in *. simpl. lia. }
  unfold body. cbn [init i result_lines merged_selectors line_at nth].
  rewrite Hd.
  destruct (capture (d :: dbody) 0 d) as [c rl]. cbn [fst snd] in HL, Hf.
  subst c. cbn [mem existsb negb].
  rewrite main_loop_done by (cbn [i]; lia).
  cbn [option_map result_lines app]. rewrite HL.
  cbn [skipn Nat.add]. rewrite firstn_all2 by (simpl; lia). reflexivity.
Qed.

(** A dark-scoped rule that nothing but plain lines precedes and that
    runs to the end of the input (its braces stay open in front of each
    of its lines behind the first) is emitted once, with the markers
    stripped from its opening line and its other lines as they are,
    behind the plain lines. *)
Theorem dark_rule_stripped (pre : list string) (d : string)
    (dbody : list string) :
  Forall plain pre ->
  is_dark_line d = true ->
  open_before_each (brace_delta d) dbody ->
  merge_lines (pre ++ d :: dbody) = Some (pre ++ strip_dark d :: dbody).
Proof.
  intros Hpre Hd Hopen.
  rewrite (merge_lines_plain_prefix pre (d :: dbody) Hpre).
  rewrite (dark_rule_at_end d dbody Hd Hopen). reflexivity.
Qed.

Lemma dark_rule_stripped_witness :
  merge_lines [ "/* cards */"; ""; "  body.dark-mode .card {";
                "    color: #fff;"; "  }" ]
  = Some [ "/* cards */"; ""; "  .card {"; "    color: #fff;"; "  }" ].
Proof.
  refine (dark_rule_stripped [ "/* cards */"; "" ]
            "  body.dark-mode .card {" [ "    color: #fff;"; "  }" ] _ _ _).
  - repeat constructor.
  - reflexivity.
  - intros [|[|m]] Hm; try reflexivity. simpl in Hm. lia.
Defined.

(** A base rule whose block closes on its last line, directly followed
    by a dark-scoped rule for its selector that runs to the end of the
    input, with plain lines only in front of it and no line of its block
    holding more than three opening braces: the base rule is left out
    and the dark-scoped rule takes its place, opening line stripped. *)
Theorem overridden_rule_replaced (pre : list string) (b d : string)
    (bbody dbody : list string) :
  Forall plain pre ->
  is_dark_line b = false ->
  rule_opening b = true ->
  open_before_each (brace_delta b) bbody ->
  (balance (brace_delta b) bbody <= 0)%Z ->
  Forall (fun l => (count lbrace l <= 3)%Z) bbody ->
  override_line (selector_of b) d = true ->
  open_before_each (brace_delta d) dbody ->
  merge_lines (pre ++ b :: bbody ++ d :: dbody)
  = Some (pre ++ strip_dark d :: dbody).
Proof.
  intros Hpre Hb Hr Hopen Hclose Hfew Ho Hdopen.
  rewrite (merge_lines_plain_prefix pre (b :: bbody ++ d :: dbody) Hpre).
  rewrite (override_replaces_base_rule b d bbody dbody); [reflexivity | | | | | | ].
  - exact Hb.
  - exact Hr.
  - apply lookahead_reaches; assumption.
  - apply skip_block_closed; assumption.
  - apply (override_line_is_dark _ _ Ho).
  - rewrite (collect_block_to_end dbody _ _ _ Hdopen).
    simpl. rewrite length_app. simpl. lia.
Qed.

Lemma overridden_rule_replaced_witness :
  merge_lines [ "/* cards */"; ".card {"; "  color: #000;"; "}";
                "body.dark-mode .card {"; "  color: #fff;"; "}" ]
  = Some [ "/* cards */"; ".card {"; "  color: #fff;"; "}" ].
Proof.
  refine (overridden_rule_replaced [ "/* cards */" ] ".card {"
            "body.dark-mode .card {" [ "  color: #000;"; "}" ]
            [ "  color: #fff;"; "}" ] _ _ _ _ _ _ _ _).
  - repeat constructor.
  - reflexivity.
  - reflexivity.
  - intros [|[|m]] Hm; try reflexivity. simpl in Hm. lia.
  - discriminate.
  - repeat constructor; discriminate.
  - reflexivity.
  - intros [|[|m]] Hm; try reflexivity. simpl in Hm. lia.
Defined.

(** ** Plain lines in front *)

Lemma merge_lines_total (lines : list string) :
  exists out, merge_lines lines = Some out.
Proof.
  unfold merge_lines.
  destruct (main_loop_enough_fuel lines (List.length lines) init)
    as [st' [E _]]; [simpl; lia|].
  rewrite E. eexists. reflexivity.
Qed.

(** Lines without dark-mode text and without an opening brace that stand
    in front of a stylesheet are copied to the output and change nothing
    of what is made of the lines behind them. *)
Theorem plain_prefix_passes (pre rest : list string) :
  Forall plain pre ->
  exists out,
    merge_lines rest = Some out
    /\ merge_lines (pre ++ rest) = Some (pre ++ out).
Proof.
  intros Hpre. destruct (merge_lines_total rest) as [out E].
  exists out. split; [exact E|].
  rewrite (merge_lines_plain_prefix pre rest Hpre), E. reflexivity.
Qed.

Lemma plain_prefix_passes_witness :
  exists out,
    merge_lines two_dark_rules = Some out
    /\ merge_lines ([ "/* theme */"; "" ] ++ two_dark_rules)
       = Some ([ "/* theme */"; "" ] ++ out).
Proof.
  refine (plain_prefix_passes [ "/* theme */"; "" ] two_dark_rules _).
  repeat constructor.
Defined.

Lemma merge_without_dark_text_witness :
  merge_dark_mode_css ".card { color: #000; }"
  = Some ".card { color: #000; }".
Proof.
  exact (merge_without_dark_text ".card { color: #000; }" eq_refl).
Defined.

(** ** Selectors that begin alike *)

Lemma override_line_prefix (selector suffix l : string) :
  override_line (selector ++ suffix) l = true ->
  override_line selector l = true.
Proof.
  unfold override_line. intros H.
  apply orb_true_iff in H as [H|H]; apply orb_true_iff; [left|right].
  - apply (contains_inside "" ("body.dark-mode " ++ selector) suffix).
    simpl append in *. exact H.
  - apply (contains_inside "" (".dark-mode " ++ selector) suffix).
    simpl append in *. exact H.
Qed.

Lemma lookahead_prefix (selector suffix : string) (rest : list string) :
  forall j,
    found (lookahead (selector ++ suffix) rest j) = true ->
    found (lookahead selector rest j) = true.
Proof.
  induction rest as [|l rest IH]; intros j H; simpl in *.
  - exact H.
  - destruct (override_line (selector ++ suffix) l) eqn:E.
    + rewrite (override_line_prefix _ _ _ E). reflexivity.
    + destruct (override_line selector l); [reflexivity|].
      destruct (3 <? count lbrace l)%Z; [exact H|].
      apply IH. exact H.
Qed.

(** The override test matches text, not selectors: whenever it finds an
    override for a selector, it finds one for every selector that this
    selector begins with.  A dark-scoped rule for [.card-header] thus
    counts as an override of the base rule for [.card]. *)
Theorem override_found_for_prefix (selector suffix : string)
    (lines : list string) (k : nat) :
  has_dark_override (selector ++ suffix) lines k = true ->
  has_dark_override selector lines k = true.
Proof. unfold has_dark_override. apply lookahead_prefix. Qed.

Lemma override_found_for_prefix_witness :
  has_dark_override ".card"
    [ ".card { color: #000; }";
      "body.dark-mode .card-header { color: #fff; }" ] 0
  = true.
Proof.
  exact (override_found_for_prefix ".card" "-header"
           [ ".card { color: #000; }";
             "body.dark-mode .card-header { color: #fff; }" ] 0 eq_refl).
Defined.

(** ** What holds along the scan *)

Section Scan.

Variable lines : list string.

Lemma body_appends (st : state) :
  exists more, result_lines (body lines st) = result_lines st ++ more.
Proof.
  unfold body.
  destruct (is_dark_line (line_at lines (i st))).
  - destruct (capture lines (i st) (line_at lines (i st))) as [c rl].
    destruct (negb (mem _ _)); cbn [result_lines].
    + exists rl. reflexivity.
    + exists []. rewrite app_nil_r. reflexivity.
  - destruct (rule_opening _); [destruct (negb _)|]; cbn [result_lines].
    + eexists. reflexivity.
    + exists []. rewrite app_nil_r. reflexivity.
    + eexists. reflexivity.
Qed.

Lemma body_remembers (st : state) (k : string) :
  mem k (merged_selectors st) = true ->
  mem k (merged_selectors (body lines st)) = true.
Proof.
  intros H. unfold body.
  destruct (is_dark_line (line_at lines (i st))).
  - destruct (capture lines (i st) (line_at lines (i st))) as [c rl].
    destruct (negb (mem _ _)); cbn [merged_selectors]; [|exact H].
    unfold mem in *. simpl. rewrite H. apply orb_true_r.
  - destruct (rule_opening _); [destruct (negb _)|]; exact H.
Qed.

Lemma body_records (st : state) :
  is_dark_line (line_at lines (i st)) = true ->
  mem (base_selector (line_at lines (i st)))
    (merged_selectors (body lines st)) = true.
Proof.
  intros Hd. unfold body. rewrite Hd.
  destruct (capture lines (i st) (line_at lines (i st))) as [c rl].
  destruct (mem (base_selector (line_at lines (i st))) (merged_selectors st))
    eqn:E; cbn [negb merged_selectors]; [exact E|].
  unfold mem. simpl. rewrite String.eqb_refl. reflexivity.
Qed.

Lemma body_drops_repeat (st : state) :
  is_dark_line (line_at lines (i st)) = true ->
  mem (base_selector (line_at lines (i st))) (merged_selectors st) = true ->
  result_lines (body lines st) = result_lines st.
Proof.
  intros Hd Hm. unfold body. rewrite Hd.
  destruct (capture lines (i st) (line_at lines (i st))) as [c rl].
  rewrite Hm. reflexivity.
Qed.

Lemma scan_grows (st st' : state) :
  scan lines st st' ->
  i st <= i st'
  /\ (exists more, result_lines st' = result_lines st ++ more)
  /\ (forall k, mem k (merged_selectors st) = true ->
                mem k (merged_selectors st') = true).
Proof.
  induction 1 as [st|st st' Hi _ IH].
  - repeat split; auto. exists []. rewrite app_nil_r. reflexivity.
  - destruct IH as (Hc & [more Hr] & Hm).
    pose proof (body_cursor lines st Hi) as [Hadv _].
    destruct (body_appends st) as [more0 Hr0].
    repeat split.
    + lia.
    + exists (more0 ++ more). rewrite Hr, Hr0, app_assoc. reflexivity.
    + intros k Hk. apply Hm. apply body_remembers. exact Hk.
Qed.

End Scan.

(** From any state on, the scan only moves forward, only appends to the
    output produced so far, and never forgets a recorded selector
    line. *)
Theorem scan_only_appends (lines : list string) (st st' : state) :
  scan lines st st' ->
  i st <= i st'
  /\ (exists more, result_lines st' = result_lines st ++ more)
  /\ (forall k, mem k (merged_selectors st) = true ->
                mem k (merged_selectors st') = true).
Proof. apply scan_grows. Qed.

Lemma scan_only_appends_witness :
  i init <= i (body two_dark_rules init)
  /\ (exists more,
        result_lines (body two_dark_rules init) = result_lines init ++ more)
  /\ (forall k, mem k (merged_selectors init) = true ->
                mem k (merged_selectors (body two_dark_rules init)) = true).
Proof.
  refine (scan_only_appends two_dark_rules init (body two_dark_rules init) _).
  apply scan_next; [simpl; lia | apply scan_here].
Defined.

(** Once the scan has handled a dark-mode line, every later dark-mode
    line it comes to whose stripped and trimmed text is the same adds
    nothing to the output: the block captured for it is dropped. *)
Theorem repeated_dark_line_dropped (lines : list string) (st st' : state) :
  i st < List.length lines ->
  is_dark_line (line_at lines (i st)) = true ->
  scan lines (body lines st) st' ->
  is_dark_line (line_at lines (i st')) = true ->
  base_selector (line_at lines (i st'))
  = base_selector (line_at lines (i st)) ->
  result_lines (body lines st') = result_lines st'.
Proof.
  intros Hi Hd Hscan Hd' Hkey.
  apply body_drops_repeat; [exact Hd'|].
  rewrite Hkey.
  apply (scan_grows lines _ _ Hscan). apply body_records. exact Hd.
Qed.

Lemma repeated_dark_line_dropped_witness :
  result_lines (body discarded_repeat (body discarded_repeat init))
  = result_lines (body discarded_repeat init).
Proof.
  refine (repeated_dark_line_dropped discarded_repeat init
            (body discarded_repeat init) _ _ _ _ _).
  - simpl. lia.
  - reflexivity.
  - apply scan_here.
  - reflexivity.
  - reflexivity.
Defined.

(** ** Stripping a leading marker *)

Section Stripping.

Lemma re_sub_lit_ws_skip (lit : string) (c : ascii) (s : string) :
  lit_ws_here lit (String c s) = false ->
  re_sub_lit_ws lit (String c s) = String c (re_sub_lit_ws lit s).
Proof.
  intros H. unfold re_sub_lit_ws.
  change (String.length (String c s)) with (S (String.length s)).
  rewrite re_sub_fuel_cons, H. reflexivity.
Qed.

Lemma re_sub_lit_ws_match (lit s : string) :
  lit_ws_here lit s = true ->
  re_sub_lit_ws lit s
  = re_sub_lit_ws lit (lstrip (drop (String.length lit) s)).
Proof.
  intros H. pose proof (lit_ws_here_shorter _ _ H) as Hlen.
  unfold re_sub_lit_ws. destruct s as [|c s].
  - unfold lit_ws_here in H. apply andb_true_iff in H as [_ H].
    destruct (String.length lit); discriminate.
  - change (String.length (String c s)) with (S (String.length s)) in *.
    rewrite re_sub_fuel_cons, H.
    apply re_sub_fuel_enough; lia.
Qed.

Lemma re_sub_fuel_absent (lit : string) (fuel : nat) :
  forall s, contains lit s = false -> re_sub_fuel fuel lit s = s.
Proof.
  induction fuel as [|fuel IH]; intros s H; [reflexivity|].
  destruct s as [|c s]; [reflexivity|].
  rewrite contains_cons in H. apply orb_false_iff in H as [Hp Hc].
  rewrite re_sub_fuel_cons. unfold lit_ws_here. rewrite Hp. simpl.
  rewrite IH by exact Hc. reflexivity.
Qed.

Lemma lit_ws_here_other_head (a : ascii) (lit' : string) (c : ascii)
    (s : string) :
  a <> c -> lit_ws_here (String a lit') (String c s) = false.
Proof.
  intros H. unfold lit_ws_here. simpl prefix.
  destruct (ascii_dec a c); [contradiction | reflexivity].
Qed.

Lemma re_sub_lit_ws_blank (a : ascii) (lit' w x : string) :
  is_space a = false ->
  blank w = true ->
  re_sub_lit_ws (String a lit') (w ++ x)
  = (w ++ re_sub_lit_ws (String a lit') x)%string.
Proof.
  intros Ha. induction w as [|c w IH]; intros Hw; [reflexivity|].
  simpl in Hw. apply andb_true_iff in Hw as [Hc Hw].
  change (String c w ++ x)%string with (String c (w ++ x)).
  rewrite re_sub_lit_ws_skip.
  - rewrite IH by exact Hw. reflexivity.
  - apply lit_ws_here_other_head. intros ->. congruence.
Qed.

Lemma lstrip_suffix (s : string) : exists p, s = (p ++ lstrip s)%string.
Proof.
  induction s as [|c s [p IH]].
  - exists EmptyString. reflexivity.
  - simpl. destruct (is_space c).
    + exists (String c p). simpl. rewrite <- IH. reflexivity.
    + exists EmptyString. reflexivity.
Qed.

Lemma contains_lstrip (sub s : string) :
  contains sub s = false -> contains sub (lstrip s) = false.
Proof.
  intros H. destruct (contains sub (lstrip s)) eqn:E; [|reflexivity].
  destruct (lstrip_suffix s) as [p Hp].
  pose proof (contains_within sub (lstrip s) p EmptyString E) as Hc.
  rewrite sappend_empty_r, <- Hp in Hc. congruence.
Qed.

Lemma no_body_marker (s : string) :
  contains ".dark-mode" s = false -> contains "body.dark-mode" s = false.
Proof.
  intros H. destruct (contains "body.dark-mode" s) eqn:E; [|reflexivity].
  rewrite (contains_inside "body" ".dark-mode" "" s E) in H. discriminate.
Qed.

Lemma strip_dark_body_marker (w rest : string) :
  blank w = true ->
  contains ".dark-mode" rest = false ->
  strip_dark (w ++ "body.dark-mode " ++ rest) = (w ++ lstrip rest)%string.
Proof.
  intros Hw Hr. unfold strip_dark.
  rewrite re_sub_lit_ws_blank by (reflexivity || exact Hw).
  rewrite (re_sub_lit_ws_match "body.dark-mode" ("body.dark-mode " ++ rest)).
  - change (lstrip (drop (String.length "body.dark-mode")
                      ("body.dark-mode " ++ rest)))
      with (lstrip rest).
    unfold re_sub_lit_ws at 2.
    rewrite re_sub_fuel_absent
      by (apply no_body_marker, contains_lstrip; exact Hr).
    rewrite re_sub_lit_ws_blank by (reflexivity || exact Hw).
    unfold re_sub_lit_ws.
    rewrite re_sub_fuel_absent by (apply contains_lstrip; exact Hr).
    reflexivity.
  - unfold lit_ws_here.
    change ("body.dark-mode " ++ rest)%string
      with ("body.dark-mode" ++ (String " " rest))%string.
    rewrite prefix_append, drop_append. reflexivity.
Qed.

Lemma strip_dark_plain_marker (w rest : string) :
  blank w = true ->
  contains ".dark-mode" rest = false ->
  strip_dark (w ++ ".dark-mode " ++ rest) = (w ++ lstrip rest)%string.
Proof.
  intros Hw Hr. unfold strip_dark.
  rewrite re_sub_lit_ws_blank by (reflexivity || exact Hw).
  assert (H1 : re_sub_lit_ws "body.dark-mode" (".dark-mode " ++ rest)
               = (".dark-mode " ++ rest)%string).
  { simpl append.
    repeat (rewrite re_sub_lit_ws_skip
              by (apply lit_ws_here_other_head; discriminate)).
    unfold re_sub_lit_ws.
    rewrite re_sub_fuel_absent by (apply no_body_marker; exact Hr).
    reflexivity. }
  rewrite H1.
  rewrite re_sub_lit_ws_blank by (reflexivity || exact Hw).
  rewrite (re_sub_lit_ws_match ".dark-mode" (".dark-mode " ++ rest)).
  - change (lstrip (drop (String.length ".dark-mode")
                      (".dark-mode " ++ rest)))
      with (lstrip rest).
    unfold re_sub_lit_ws.
    rewrite re_sub_fuel_absent by (apply contains_lstrip; exact Hr).
    reflexivity.
  - unfold lit_ws_here.
    change (".dark-mode " ++ rest)%string
      with (".dark-mode" ++ (String " " rest))%string.
    rewrite prefix_append, drop_append. reflexivity.
Qed.

End Stripping.

(** On a dark-mode line made of indentation, one scope marker (either
    form) and a text without [.dark-mode], the two substitutions of
    lines 27-28 leave the indentation followed by that text, leading
    white space of the text removed with the marker. *)
Theorem strip_dark_leading_marker (w rest : string) :
  blank w = true ->
  contains ".dark-mode" rest = false ->
  strip_dark (w ++ "body.dark-mode " ++ rest) = (w ++ lstrip rest)%string
  /\ strip_dark (w ++ ".dark-mode " ++ rest) = (w ++ lstrip rest)%string.
Proof.
  intros Hw Hr. split.
  - apply strip_dark_body_marker; assumption.
  - apply strip_dark_plain_marker; assumption.
Qed.

Lemma strip_dark_leading_marker_witness :
  strip_dark ("  " ++ "body.dark-mode " ++ " .card:hover {")
  = ("  " ++ lstrip " .card:hover {")%string
  /\ strip_dark ("  " ++ ".dark-mode " ++ " .card:hover {")
     = ("  " ++ lstrip " .card:hover {")%string.
Proof.
  exact (strip_dark_leading_marker "  " " .card:hover {" eq_refl eq_refl).
Defined.

(** ** The calls of the entry point *)

(** Every run has one of four shapes.  With an argument count other than
    one the script prints the usage line and exits with status 1, without
    opening any file.  Otherwise it opens the path given, and nothing
    else, to read; if that fails it stops there.  If not, it opens one
    path to write, the output path computed from the argument, with the
    merged text, which is never longer than the text read; it then
    either fails on the write or prints the line naming the output path
    and ends with status 0. *)
Theorem main_calls (argv : list string) (env : answers) :
  let css_file := nth 1 argv EmptyString in
  (List.length argv <> 2 /\ main argv env = [Print usage; Exit 1])
  \/ (List.length argv = 2 /\ read_text env css_file = None
      /\ main argv env = [Read css_file; Uncaught])
  \/ (List.length argv = 2
      /\ exists content merged,
           read_text env css_file = Some content
           /\ merge_dark_mode_css content = Some merged
           /\ String.length merged <= String.length content
           /\ ((write_ok env (output_file css_file) = false
                /\ main argv env
                   = [Read css_file; Write (output_file css_file) merged;
                      Uncaught])
               \/ (write_ok env (output_file css_file) = true
                   /\ main argv env
                      = [Read css_file; Write (output_file css_file) merged;
                         Print ("Merged CSS written to "
                                  ++ output_file css_file)%string;
                         Exit 0]))).
Proof.
  cbv zeta. unfold main.
  destruct (Nat.eqb_spec (List.length argv) 2) as [Hlen|Hlen]; cbn [negb].
  - right. destruct (read_text env (nth 1 argv EmptyString)) as [content|].
    + right. split; [exact Hlen|].
      destruct (merge_returns_shorter content) as (merged & E & Hle).
      exists content, merged. rewrite E.
      repeat split; try assumption.
      destruct (write_ok env (output_file (nth 1 argv EmptyString)));
        [right | left]; split; reflexivity.
    + left. repeat split; assumption.
  - left. split; [exact Hlen | reflexivity].
Qed.

Ltac no_write H :=
  simpl in H;
  repeat (destruct H as [H|H]; [discriminate|]);
  try contradiction.

Lemma main_writes_once (argv : list string) (env : answers) (p t : string) :
  In (Write p t) (main argv env) ->
  List.length argv = 2 /\ p = output_file (nth 1 argv EmptyString).
Proof.
  unfold main. intros H.
  destruct (Nat.eqb_spec (List.length argv) 2) as [Hlen|Hlen];
    cbn [negb] in H; [|no_write H].
  destruct (read_text env (nth 1 argv EmptyString)) as [content|];
    [|no_write H].
  destruct (merge_dark_mode_css content) as [merged|]; [|no_write H].
  split; [exact Hlen|].
  destruct (write_ok env _); simpl in H;
    destruct H as [H|[H|H]]; try discriminate;
    try (injection H as <- _; reflexivity);
    no_write H.
Qed.

(** The path the script writes is the path it was given exactly when
    that path holds no [.css]: a file whose path contains [.css] is not
    the path written, and any other input path is written over. *)
Theorem main_write_path (argv : list string) (env : answers)
    (p t : string) :
  In (Write p t) (main argv env) ->
  (contains ".css" (nth 1 argv EmptyString) = true ->
   p <> nth 1 argv EmptyString)
  /\ (contains ".css" (nth 1 argv EmptyString) = false ->
      p = nth 1 argv EmptyString).
Proof.
  intros Hin. destruct (main_writes_once argv env p t Hin) as [_ ->].
  unfold output_file, replace. split; intros Hc.
  - intros Heq.
    pose proof (replace_fuel_longer ".css" "_merged.css"
                  ltac:(discriminate) ltac:(simpl; lia)
                  (String.length (nth 1 argv EmptyString))
                  (nth 1 argv EmptyString) (le_n _) Hc) as Hl.
    rewrite Heq in Hl. lia.
  - apply replace_fuel_absent. exact Hc.
Qed.

Lemma main_write_path_witness : "app_merged.css" <> "app.css".
Proof.
  refine (proj1 (main_write_path [ "merge_dark_mode.py"; "app.css" ]
                   (mkAnswers (fun _ => Some ".a { }") (fun _ => true))
                   "app_merged.css" ".a { }" _) eq_refl).
  simpl. right. left. reflexivity.
Defined.

(** ** Markers that are not stripped *)

Section Unstripped.

Lemma re_sub_fuel_no_match (lit : string) (fuel : nat) :
  forall s, lit_ws_in lit s = false -> re_sub_fuel fuel lit s = s.
Proof.
  induction fuel as [|fuel IH]; intros s H; [reflexivity|].
  destruct s as [|c s]; [reflexivity|].
  change (lit_ws_in lit (String c s))
    with (lit_ws_here lit (String c s) || lit_ws_in lit s) in H.
  apply orb_false_iff in H as [Hh Ht].
  rewrite re_sub_fuel_cons, Hh, IH by exact Ht. reflexivity.
Qed.

Lemma lit_ws_in_behind (lit p s : string) :
  lit_ws_in lit s = true -> lit_ws_in lit (p ++ s) = true.
Proof.
  intros H. induction p as [|c p IH]; [exact H|].
  change (lit_ws_in lit (String c p ++ s))
    with (lit_ws_here lit (String c (p ++ s)) || lit_ws_in lit (p ++ s)).
  rewrite IH. apply orb_true_r.
Qed.

Lemma lit_ws_here_split (lit s : string) :
  lit_ws_here lit s = true ->
  exists c t, s = (lit ++ String c t)%string /\ is_space c = true.
Proof.
  unfold lit_ws_here. intros H. apply andb_true_iff in H as [Hp Hs].
  apply prefix_split in Hp as [t ->]. rewrite drop_append in Hs.
  destruct t as [|c t]; [discriminate|]. exists c, t. split; auto.
Qed.

Lemma lit_ws_here_intro (lit : string) (c : ascii) (t : string) :
  is_space c = true -> lit_ws_here lit (lit ++ String c t) = true.
Proof.
  intros H. unfold lit_ws_here. rewrite prefix_append, drop_append.
  exact H.
Qed.

Lemma lit_ws_in_here (lit s : string) :
  lit_ws_here lit s = true -> lit_ws_in lit s = true.
Proof. intros H. destruct s; simpl; rewrite H; reflexivity. Qed.

Lemma body_marker_is_marker (s : string) :
  lit_ws_in ".dark-mode" s = false -> lit_ws_in "body.dark-mode" s = false.
Proof.
  intros H. destruct (lit_ws_in "body.dark-mode" s) eqn:E; [|reflexivity].
  exfalso. revert H E. induction s as [|c s IH]; intros H E.
  - discriminate.
  - change (lit_ws_in ".dark-mode" (String c s))
      with (lit_ws_here ".dark-mode" (String c s)
            || lit_ws_in ".dark-mode" s) in H.
    change (lit_ws_in "body.dark-mode" (String c s))
      with (lit_ws_here "body.dark-mode" (String c s)
            || lit_ws_in "body.dark-mode" s) in E.
    apply orb_false_iff in H as [Hh Ht].
    apply orb_true_iff in E as [E|E]; [|exact (IH Ht E)].
    apply lit_ws_here_split in E as (d & t & Hs & Hd).
    assert (Hin : lit_ws_in ".dark-mode" (String c s) = true).
    { rewrite Hs.
      change ("body.dark-mode" ++ String d t)%string
        with ("body" ++ (".dark-mode" ++ String d t))%string.
      apply lit_ws_in_behind, lit_ws_in_here, lit_ws_here_intro. exact Hd. }
    change (lit_ws_in ".dark-mode" (String c s))
      with (lit_ws_here ".dark-mode" (String c s)
            || lit_ws_in ".dark-mode" s) in Hin.
    rewrite Hh, Ht in Hin. discriminate.
Qed.

End Unstripped.

(** The substitutions of lines 27-28 remove a marker only together with
    white space behind it: on a line in which no [.dark-mode] is followed
    by white space they change nothing, although line 25 may well take
    the line for a dark-mode line. *)
Theorem marker_without_space_kept (line : string) :
  lit_ws_in ".dark-mode" line = false -> strip_dark line = line.
Proof.
  intros H. unfold strip_dark, re_sub_lit_ws.
  rewrite (re_sub_fuel_no_match "body.dark-mode")
    by (apply body_marker_is_marker; exact H).
  apply re_sub_fuel_no_match. exact H.
Qed.

Lemma marker_without_space_kept_witness :
  strip_dark "body.dark-mode{background:#111}"
  = "body.dark-mode{background:#111}"
  /\ is_dark_line "body.dark-mode{background:#111}" = true.
Proof.
  split.
  - exact (marker_without_space_kept "body.dark-mode{background:#111}"
             eq_refl).
  - reflexivity.
Defined.

(** ** Overrides out of reach *)

Lemma lookahead_blocked (selector big : string) (between after : list string) :
  forall j,
    Forall (fun l => override_line selector l = false) between ->
    override_line selector big = false ->
    (3 < count lbrace big)%Z ->
    found (lookahead selector (between ++ big :: after) j) = false.
Proof.
  induction between as [|l between IH]; intros j HF Hb Hc; simpl.
  - rewrite Hb. destruct (Z.ltb_spec 3 (count lbrace big)); [reflexivity|lia].
  - inversion HF as [|? ? Hl HF']; subst. rewrite Hl.
    destruct (3 <? count lbrace l)%Z; [reflexivity|].
    apply IH; assumption.
Qed.

(** The lookahead does not pass a line with more than three opening
    braces: when the lines behind a rule match nothing up to such a line,
    no override is found for the rule, whatever stands behind that line,
    and whatever stands in front of the rule. *)
Theorem override_out_of_reach (selector b big : string)
    (pre between after : list string) :
  Forall (fun l => override_line selector l = false) between ->
  override_line selector big = false ->
  (3 < count lbrace big)%Z ->
  has_dark_override selector (pre ++ b :: between ++ big :: after)
    (List.length pre)
  = false.
Proof.
  intros HF Hb Hc. rewrite has_dark_override_behind.
  apply lookahead_blocked; assumption.
Qed.

Lemma override_out_of_reach_witness :
  has_dark_override ".card"
    [ ".card { color: #000; }"; ""; ".a{} .b{} .c{} .d{}";
      "body.dark-mode .card { color: #fff; }" ] 0
  = false.
Proof.
  refine (override_out_of_reach ".card" ".card { color: #000; }"
            ".a{} .b{} .c{} .d{}" [] [ "" ]
            [ "body.dark-mode .card { color: #fff; }" ] _ _ _).
  - repeat constructor.
  - reflexivity.
  - reflexivity.
Defined.
